(** * BGP topology visualizer: a shallow embedding of [backend/main.py]

    The development follows the source file top-down: the Python values a
    decoded JSON document is made of, the few [str]/[dict]/[list] operations
    the program applies to them (with the exception each one raises on a value
    of the wrong type), the [networkx.Graph] subset the builder uses,
    [extract_routes], [build_dynamic_topology], [fetch_topology], one
    iteration of [poll_loop], the connection manager and the two endpoints.

    Conventions.
    - A Python exception is a value of [exn]; code that may raise lives in the
      [result] monad.  A [try ... except (KeyError, IndexError)] is a [match]
      that lets every other exception through.
    - The recursive scan of the builder raises [RecursionError] when the
      interpreter allows no further frame: the number of frames still
      available when the scan is called is an argument, [frames], of the
      builder and of everything that calls it.
    - A [dict] is an association list in insertion order ([odict]).
    - A [set] is the list of its distinct elements in order of first insertion.
      Python does not fix the order in which a set of strings is iterated
      (string hashing is randomised per process), so every function that
      iterates a set takes the iteration order as a [SetOrder] argument.
    - JSON numbers are integers, and a string is a sequence of 8-bit
      characters. *)

From Stdlib Require Import String Ascii List Bool Arith ZArith Lia Permutation.
Import ListNotations.
Local Open Scope string_scope.
#[local] Set Warnings "-register-all".
Local Open Scope list_scope.

(** ** Exceptions and the error monad *)

Inductive exn : Type :=
| KeyError
| IndexError
| TypeError
| AttributeError
| ValueError
| RecursionError
| ServerDisconnectedError
| TimeoutError
| ContentTypeError.

Inductive result (A : Type) : Type :=
| Ok (a : A)
| Raise (e : exn).
Arguments Ok {A} a.
Arguments Raise {A} e.

Definition bind {A B : Type} (m : result A) (k : A -> result B) : result B :=
  match m with
  | Ok a => k a
  | Raise e => Raise e
  end.

Notation "x <- m ;; k" := (bind m (fun x => k))
  (at level 61, m at next level, right associativity).

Fixpoint mapM {A B : Type} (f : A -> result B) (l : list A) : result (list B) :=
  match l with
  | [] => Ok []
  | a :: l' => b <- f a ;; bs <- mapM f l' ;; Ok (b :: bs)
  end.

(** ** Ordered dictionaries *)

Definition odict (V : Type) : Type := list (string * V).

Fixpoint od_get {V : Type} (d : odict V) (k : string) : option V :=
  match d with
  | [] => None
  | (k', v) :: d' => if String.eqb k' k then Some v else od_get d' k
  end.

Definition od_mem {V : Type} (d : odict V) (k : string) : bool :=
  match od_get d k with Some _ => true | None => false end.

(** [d[k] = v]: an existing key keeps its position, a new key goes last. *)
Fixpoint od_set {V : Type} (d : odict V) (k : string) (v : V) : odict V :=
  match d with
  | [] => [(k, v)]
  | (k', v') :: d' =>
      if String.eqb k' k then (k', v) :: d' else (k', v') :: od_set d' k v
  end.

Definition od_keys {V : Type} (d : odict V) : list string := map fst d.

(** ** Sets and their iteration order *)

Definition mem_str (x : string) (s : list string) : bool :=
  existsb (String.eqb x) s.

(** [s.add(x)] *)
Definition set_add (x : string) (s : list string) : list string :=
  if mem_str x s then s else s ++ [x].

(** An iteration order visits every element of the set once, in an order
    that may depend on the elements and on their insertion history. *)
Record SetOrder (A : Type) : Type := {
  set_iter : list A -> list A;
  set_iter_perm : forall l, Permutation (set_iter l) l
}.
Arguments set_iter {A} s l.
Arguments set_iter_perm {A} s l.

Definition insertion_order (A : Type) : SetOrder A :=
  {| set_iter := fun l => l; set_iter_perm := fun l => Permutation_refl l |}.

Definition reverse_order (A : Type) : SetOrder A :=
  {| set_iter := fun l => rev l;
     set_iter_perm := fun l => Permutation_sym (Permutation_rev l) |}.

(** ** Decoded JSON documents *)

Inductive json : Type :=
| JNull
| JBool (b : bool)
| JNum (n : Z)
| JStr (s : string)
| JArr (items : list json)
| JObj (fields : list (string * json)).

(** Truth value of a Python object ([if not x]). *)
Definition truthy (v : json) : bool :=
  match v with
  | JNull => false
  | JBool b => b
  | JNum n => negb (Z.eqb n 0)
  | JStr s => negb (String.eqb s "")
  | JArr l => match l with [] => false | _ => true end
  | JObj d => match d with [] => false | _ => true end
  end.

(** [v[k]] for a string key. *)
Definition py_item (v : json) (k : string) : result json :=
  match v with
  | JObj d => match od_get d k with Some x => Ok x | None => Raise KeyError end
  | _ => Raise TypeError
  end.

(** [v[0]] *)
Definition py_first (v : json) : result json :=
  match v with
  | JArr l => match l with x :: _ => Ok x | [] => Raise IndexError end
  | JObj _ => Raise KeyError
  | JStr s =>
      match s with
      | String c _ => Ok (JStr (String c ""))
      | EmptyString => Raise IndexError
      end
  | _ => Raise TypeError
  end.

(** [v.get(k, default)] *)
Definition py_get (v : json) (k : string) (default : json) : result json :=
  match v with
  | JObj d => Ok (match od_get d k with Some x => x | None => default end)
  | _ => Raise AttributeError
  end.

Fixpoint chars (s : string) : list json :=
  match s with
  | EmptyString => []
  | String c s' => JStr (String c "") :: chars s'
  end.

(** The items a [for x in v] loop visits. *)
Definition py_iter (v : json) : result (list json) :=
  match v with
  | JArr l => Ok l
  | JObj d => Ok (map (fun kv => JStr (fst kv)) d)
  | JStr s => Ok (chars s)
  | _ => Raise TypeError
  end.

(** ** String operations *)

(** [s.split(sep)] for a non-empty separator: [skip] counts the characters of
    a separator occurrence still to be consumed, [cur] is the current piece. *)
Fixpoint split_from (sep : string) (skip : nat) (cur : string) (s : string)
  : list string :=
  match s with
  | EmptyString => [cur]
  | String c s' =>
      match skip with
      | S k => split_from sep k cur s'
      | O =>
          if String.prefix sep s
          then cur :: split_from sep (String.length sep - 1) "" s'
          else split_from sep 0 (cur ++ String c "") s'
      end
  end.

Definition split (sep s : string) : list string := split_from sep 0 "" s.

Definition startswith (s pre : string) : bool := String.prefix pre s.

Definition endswith (s suf : string) : bool :=
  let n := String.length s in
  let m := String.length suf in
  Nat.leb m n && String.eqb (String.substring (n - m) m s) suf.

(** ** The [networkx.Graph] subset used by the builder

    An undirected graph keeps two dictionaries with the same keys: [_node]
    maps a node to its attributes and [_adj] maps a node to the dictionary of
    its neighbours, each with the attributes of the joining edge.  The only
    attribute the program sets is [label], so a node carries an optional
    label and an edge carries its label. *)

Module nx.

Record Graph : Type := {
  _node : odict (option string);
  _adj : odict (odict string)
}.

Definition empty : Graph := {| _node := []; _adj := [] |}.

Definition has_node (G : Graph) (n : string) : bool := od_mem (_node G) n.

(** [G.add_node(n, label=l)] *)
Definition add_node (G : Graph) (n : string) (l : string) : Graph :=
  if od_mem (_node G) n
  then {| _node := od_set (_node G) n (Some l); _adj := _adj G |}
  else {| _node := od_set (_node G) n (Some l); _adj := od_set (_adj G) n [] |}.

(** The node insertion [add_edge] performs for an endpoint it does not know. *)
Definition touch_node (G : Graph) (n : string) : Graph :=
  if od_mem (_node G) n then G
  else {| _node := od_set (_node G) n None; _adj := od_set (_adj G) n [] |}.

Definition nbrs (adj : odict (odict string)) (n : string) : odict string :=
  match od_get adj n with Some d => d | None => [] end.

(** [G.add_edge(u, v, label=l)] *)
Definition add_edge (G : Graph) (u v : string) (l : string) : Graph :=
  let G1 := touch_node (touch_node G u) v in
  let adj1 := od_set (_adj G1) u (od_set (nbrs (_adj G1) u) v l) in
  let adj2 := od_set adj1 v (od_set (nbrs adj1 v) u l) in
  {| _node := _node G1; _adj := adj2 |}.

(** [G.nodes()] with [G.nodes[n].get("label", n)] *)
Definition nodes (G : Graph) : list (string * string) :=
  map (fun na => (fst na, match snd na with Some l => l | None => fst na end))
      (_node G).

(** [G.edges(data=True)]: every node in turn reports the edges to the
    neighbours that have not been visited before it. *)
Fixpoint edges_from (seen : list string) (adj : odict (odict string))
  : list (string * string * string) :=
  match adj with
  | [] => []
  | (n, d) :: adj' =>
      map (fun vl => (n, fst vl, snd vl))
          (filter (fun vl => negb (mem_str (fst vl) seen)) d)
      ++ edges_from (n :: seen) adj'
  end.

Definition edges (G : Graph) : list (string * string * string) :=
  edges_from [] (_adj G).

End nx.

(** ** Snapshots *)

Record Node : Type := { id : string; label : string }.
Record Edge : Type := { e_from : string; e_to : string; e_label : string }.
Record Snapshot : Type := { nodes : list Node; edges : list Edge }.

(** ** STEP 2: [extract_routes] (lines 70-95) *)

Definition hashable (v : json) : bool :=
  match v with
  | JArr _ | JObj _ => false
  | _ => true
  end.

(** Python's [==] on hashable JSON values ([True == 1] and [False == 0]). *)
Definition py_eqb (a b : json) : bool :=
  match a, b with
  | JNull, JNull => true
  | JBool x, JBool y => Bool.eqb x y
  | JNum x, JNum y => Z.eqb x y
  | JBool x, JNum y | JNum y, JBool x => Z.eqb y (if x then 1 else 0)%Z
  | JStr x, JStr y => String.eqb x y
  | _, _ => false
  end.

(** [{tuple(d.items()) for d in routes}] where every [d] is [{"prefix": v}]:
    the set is kept as the list of the distinct [v]. *)
Fixpoint route_set (vs : list json) (acc : list json) : result (list json) :=
  match vs with
  | [] => Ok acc
  | v :: vs' =>
      if hashable v
      then route_set vs' (if existsb (py_eqb v) acc then acc else acc ++ [v])
      else Raise TypeError
  end.

Definition table_prefixes (table : json) : result (list json) :=
  r <- py_get table "bgp-inet:ipv4-routes" (JObj []) ;;
  ipv4_routes <- py_get r "ipv4-route" (JArr []) ;;
  items <- py_iter ipv4_routes ;;
  mapM (fun route => py_get route "prefix" (JStr "")) items.

Definition tables_prefixes (tables : json) : result (list json) :=
  ts <- py_iter tables ;;
  ps <- mapM table_prefixes ts ;;
  Ok (concat ps).

Definition peer_prefixes (peer : json) : result (list json) :=
  rib_in <- py_get peer "effective-rib-in" (JObj []) ;;
  tables <- py_get rib_in "tables" (JArr []) ;;
  tables_prefixes tables.

Definition route_of (v : json) : odict json := [("prefix", v)].

(** The body of the [try] block. *)
Definition extract_routes_try (ord : SetOrder json) (bgp_data : json)
  : result (list (odict json)) :=
  rib <- py_get bgp_data "bgp-rib:rib" (JArr []) ;;
  if negb (truthy rib) then Ok []
  else
    rib0 <- py_first rib ;;
    loc_rib <- py_get rib0 "loc-rib" (JObj []) ;;
    loc_rib_tables <- py_get loc_rib "tables" (JArr []) ;;
    local <- tables_prefixes loc_rib_tables ;;
    rib0' <- py_first rib ;;
    peers <- py_get rib0' "peer" (JArr []) ;;
    ps <- py_iter peers ;;
    received <- mapM peer_prefixes ps ;;
    unique <- route_set (local ++ concat received) [] ;;
    Ok (map route_of (set_iter ord unique)).

(** [except Exception: return []] *)
Definition extract_routes (ord : SetOrder json) (bgp_data : json)
  : list (odict json) :=
  match extract_routes_try ord bgp_data with
  | Ok routes => routes
  | Raise _ => []
  end.

(** ** STEP 3: [build_dynamic_topology] (lines 101-177) *)

(** [try: body except <handled>: handler]; any other exception propagates. *)
Definition try_except {A : Type} (handled : exn -> bool)
  (body handler : result A) : result A :=
  match body with
  | Ok a => Ok a
  | Raise e => if handled e then handler else Raise e
  end.

Definition key_or_index (e : exn) : bool :=
  match e with KeyError | IndexError => true | _ => false end.

Definition value_or_index (e : exn) : bool :=
  match e with ValueError | IndexError => true | _ => false end.

(** [l[n]] and [l[-1]] on a list of strings. *)
Definition list_nth (l : list string) (n : nat) : result string :=
  match nth_error l n with Some x => Ok x | None => Raise IndexError end.

Definition list_last (l : list string) : result string :=
  match rev l with x :: _ => Ok x | [] => Raise IndexError end.

(** [v.split(sep)] on an arbitrary value. *)
Definition py_split (v : json) (sep : string) : result (list string) :=
  match v with
  | JStr s => Ok (split sep s)
  | _ => Raise AttributeError
  end.

(** [bgp_data["bgp-rib:rib"][0]["peer"][0]["peer-id"]] *)
Definition local_peer_id (bgp_data : json) : result json :=
  rib <- py_item bgp_data "bgp-rib:rib" ;;
  rib0 <- py_first rib ;;
  peers <- py_item rib0 "peer" ;;
  peer0 <- py_first peers ;;
  py_item peer0 "peer-id".

(** Part 1a: the local router's prefix, [None] when the handler ran. *)
Definition find_local_ip_prefix (bgp_data : json) : result (option string) :=
  try_except key_or_index
    (peer_id_str <- local_peer_id bgp_data ;;
     parts <- py_split peer_id_str "//" ;;
     local_ip <- list_last parts ;;
     Ok (Some (local_ip ++ "/32")%string))
    (Ok None).

(** [r.get('prefix', '')] on a route dictionary. *)
Definition get_prefix (r : odict json) : json :=
  match od_get r "prefix" with Some v => v | None => JStr "" end.

(** Part 1b: the set comprehension over [routes]; [startswith] is looked up
    on whatever value the route holds. *)
Fixpoint node_prefix_set (routes : list (odict json)) (acc : list string)
  : result (list string) :=
  match routes with
  | [] => Ok acc
  | r :: routes' =>
      match get_prefix r with
      | JStr p =>
          if startswith p "192.168.7." && endswith p "/32"
          then node_prefix_set routes' (set_add p acc)
          else node_prefix_set routes' acc
      | _ => Raise AttributeError
      end
  end.

(** [if local_ip_prefix: node_prefixes.add(local_ip_prefix)] *)
Definition add_local (local_ip_prefix : option string) (s : list string)
  : list string :=
  match local_ip_prefix with
  | Some p => if String.eqb p "" then s else set_add p s
  | None => s
  end.

(** Part 1c: node id and label of a prefix. *)
Definition node_of_prefix (prefix : string) : result (string * string) :=
  ip_str <- list_nth (split "/" prefix) 0 ;;
  router_num <- list_last (split "." ip_str) ;;
  Ok (("R" ++ router_num)%string, ip_str).

Definition add_prefix_node (G : nx.Graph) (prefix : string) : result nx.Graph :=
  try_except value_or_index
    (n <- node_of_prefix prefix ;; Ok (nx.add_node G (fst n) (snd n)))
    (Ok G).

Fixpoint add_nodes (G : nx.Graph) (prefixes : list string) : result nx.Graph :=
  match prefixes with
  | [] => Ok G
  | prefix :: rest => G' <- add_prefix_node G prefix ;; add_nodes G' rest
  end.

(** Part 2a: every string of the document that starts with [pattern], in
    depth-first order; keys of objects are not visited.  Every call takes one
    of the [frames] the interpreter still allows, and a call made when none is
    left raises [RecursionError]. *)
Fixpoint find_prefixes_recursively (frames : nat) (data : json)
  (pattern : string) (found_set : list string) : result (list string) :=
  match frames with
  | O => Raise RecursionError
  | S frames' =>
      match data with
      | JObj d =>
          (fix values (l : list (string * json)) (acc : list string)
             : result (list string) :=
             match l with
             | [] => Ok acc
             | kv :: l' =>
                 acc' <- find_prefixes_recursively frames' (snd kv) pattern acc ;;
                 values l' acc'
             end) d found_set
      | JArr items =>
          (fix each (l : list json) (acc : list string)
             : result (list string) :=
             match l with
             | [] => Ok acc
             | item :: l' =>
                 acc' <- find_prefixes_recursively frames' item pattern acc ;;
                 each l' acc'
             end) items found_set
      | JStr s =>
          Ok (if startswith s pattern then set_add s found_set else found_set)
      | _ => Ok found_set
      end
  end.

(** Part 2b: the edge a link prefix names, if any.  The third octet must have
    exactly two characters [x] and [y]. *)
Definition link_of_prefix (link_prefix : string)
  : result (option (string * string * string)) :=
  network_address <- list_nth (split "/" link_prefix) 0 ;;
  third_octet <- list_nth (split "." network_address) 2 ;;
  match third_octet with
  | String x (String y EmptyString) =>
      Ok (Some (("R" ++ String x "")%string, ("R" ++ String y "")%string,
                (network_address ++ "/30")%string))
  | _ => Ok None
  end.

Definition add_link (G : nx.Graph) (link_prefix : string) : result nx.Graph :=
  try_except value_or_index
    (l <- link_of_prefix link_prefix ;;
     match l with
     | Some (node1_id, node2_id, standardized_label) =>
         if nx.has_node G node1_id && nx.has_node G node2_id
         then Ok (nx.add_edge G node1_id node2_id standardized_label)
         else Ok G
     | None => Ok G
     end)
    (Ok G).

Fixpoint add_links (G : nx.Graph) (link_prefixes : list string)
  : result nx.Graph :=
  match link_prefixes with
  | [] => Ok G
  | link_prefix :: rest => G' <- add_link G link_prefix ;; add_links G' rest
  end.

(** Part 3: the graph as the dictionary sent to the frontend. *)
Definition to_snapshot (G : nx.Graph) : Snapshot :=
  {| nodes := map (fun n => {| id := fst n; label := snd n |}) (nx.nodes G);
     edges := map (fun e => {| e_from := fst (fst e); e_to := snd (fst e);
                               e_label := snd e |}) (nx.edges G) |}.

Definition build_dynamic_topology (ord : SetOrder string) (frames : nat)
  (routes : list (odict json)) (bgp_data : json) : result Snapshot :=
  local_ip_prefix <- find_local_ip_prefix bgp_data ;;
  from_routes <- node_prefix_set routes [] ;;
  let node_prefixes := add_local local_ip_prefix from_routes in
  G1 <- add_nodes nx.empty (set_iter ord node_prefixes) ;;
  link_prefixes <- find_prefixes_recursively frames bgp_data "10.85." [] ;;
  G2 <- add_links G1 (set_iter ord link_prefixes) ;;
  Ok (to_snapshot G2).

(** ** STEP 1 and STEP 4: [fetch_bgp_data] (lines 54-64) and
       [fetch_topology] (lines 182-197) *)

(** What the HTTP request to the controller ends in: an answer with its
    status and decoded body, [aiohttp.ClientConnectorError], or any other
    exception of [session.get] or [resp.json()] (the server disconnects, the
    request times out, the body is not JSON). *)
Inductive response : Type :=
| Response (status : Z) (body : json)
| ClientConnectorError
| RequestRaises (e : exn).

(** Only [ClientConnectorError] is caught. *)
Definition fetch_bgp_data (r : response) : result json :=
  match r with
  | Response status body => Ok (if Z.eqb status 200 then body else JObj [])
  | ClientConnectorError => Ok (JObj [])
  | RequestRaises e => Raise e
  end.

Definition empty_snapshot : Snapshot := {| nodes := []; edges := [] |}.

Definition fetch_topology (ordr : SetOrder json) (ords : SetOrder string)
  (frames : nat) (r : response) : result Snapshot :=
  bgp_data <- fetch_bgp_data r ;;
  if negb (truthy bgp_data) then Ok empty_snapshot
  else
    match extract_routes ordr bgp_data with
    | [] => build_dynamic_topology ords frames [] bgp_data
    | routes => build_dynamic_topology ords frames routes bgp_data
    end.

(** ** STEP 5: [ConnectionManager.broadcast] (lines 40-45) and
       [poll_loop] (lines 208-215) *)

Definition Node_eq_dec (a b : Node) : {a = b} + {a <> b}.
Proof. decide equality; apply string_dec. Defined.

Definition Edge_eq_dec (a b : Edge) : {a = b} + {a <> b}.
Proof. decide equality; apply string_dec. Defined.

(** [graph == other] on two snapshot dictionaries: list equality, field by
    field, so the order of the lists counts. *)
Definition Snapshot_eq_dec (a b : Snapshot) : {a = b} + {a <> b}.
Proof.
  decide equality; apply list_eq_dec; [apply Edge_eq_dec | apply Node_eq_dec].
Defined.

(** [graph != _latest_snapshot], where the store may still hold [None]. *)
Definition differs (graph : Snapshot) (latest : option Snapshot) : bool :=
  match latest with
  | Some s => if Snapshot_eq_dec graph s then false else true
  | None => true
  end.

(** Truth value of the dictionary [{"nodes": ..., "edges": ...}]: it has two
    keys whatever the lists hold. *)
Definition snapshot_truthy (graph : Snapshot) : bool := true.

(** [{"type": "topology", "data": graph}] *)
Record Message : Type := { m_type : string; m_data : Snapshot }.

Record State : Type := {
  _latest_snapshot : option Snapshot;
  active : list nat
}.

Inductive event : Type :=
| Broadcast (message : Message)
| Sent (ws : nat) (message : Message)
| Sleep.

(** [manager.broadcast]: [accepts ws] tells whether [ws.send_text] returns;
    a subscriber whose send raises is disconnected.  The subscribers are
    visited in the order of the list that stands for the set [active]. *)
Fixpoint broadcast (accepts : nat -> bool) (subscribers : list nat)
  (message : Message) : list nat * list event :=
  match subscribers with
  | [] => ([], [])
  | ws :: rest =>
      let (kept, sent) := broadcast accepts rest message in
      if accepts ws then (ws :: kept, Sent ws message :: sent)
      else (kept, sent)
  end.

(** The [if] statement of the loop body: adopt and broadcast a snapshot that
    differs from the stored one. *)
Definition detect_and_broadcast (st : State) (graph : Snapshot)
  (accepts : nat -> bool) : State * list event :=
  if snapshot_truthy graph && differs graph (_latest_snapshot st)
  then
    let message := {| m_type := "topology"; m_data := graph |} in
    let (kept, sent) := broadcast accepts (active st) message in
    ({| _latest_snapshot := Some graph; active := kept |},
     Broadcast message :: sent)
  else (st, []).

(** The body of [while True]. *)
Definition poll_iteration (ordr : SetOrder json) (ords : SetOrder string)
  (frames : nat) (st : State) (r : response) (accepts : nat -> bool)
  : result (State * list event) :=
  graph <- fetch_topology ordr ords frames r ;;
  let (st', events) := detect_and_broadcast st graph accepts in
  Ok (st', events ++ [Sleep]).

(** The loop over the first cycles: it stops at the first exception. *)
Fixpoint poll_loop (ordr : SetOrder json) (ords : SetOrder string)
  (frames : nat) (st : State) (cycles : list (response * (nat -> bool)))
  : result (State * list event) :=
  match cycles with
  | [] => Ok (st, [])
  | (r, accepts) :: rest =>
      step <- poll_iteration ordr ords frames st r accepts ;;
      more <- poll_loop ordr ords frames (fst step) rest ;;
      Ok (fst more, snd step ++ snd more)
  end.

(** ** [ConnectionManager.connect], [disconnect] (lines 33-38) and STEP 6:
       the endpoints (lines 221-240) *)

(** [self.active.add(websocket)], after [websocket.accept()]. *)
Definition connect (subscribers : list nat) (ws : nat) : list nat :=
  if existsb (Nat.eqb ws) subscribers then subscribers else subscribers ++ [ws].

(** [self.active.discard(websocket)] *)
Definition disconnect (subscribers : list nat) (ws : nat) : list nat :=
  filter (fun x => negb (Nat.eqb ws x)) subscribers.

(** What [/api/topology] answers: a snapshot, or status 204 with the detail
    "No topology data available yet.". *)
Inductive reply : Type :=
| Json (graph : Snapshot)
| NoContent.

(** [get_topology]: the store is read and never written. *)
Definition get_topology (ordr : SetOrder json) (ords : SetOrder string)
  (frames : nat) (st : State) (r : response) : result reply :=
  match _latest_snapshot st with
  | None =>
      initial_graph <- fetch_topology ordr ords frames r ;;
      if negb (snapshot_truthy initial_graph)
         || match nodes initial_graph with [] => true | _ => false end
      then Ok NoContent
      else Ok (Json initial_graph)
  | Some snapshot => Ok (Json snapshot)
  end.

(** How an awaited call on a websocket ends: it returns, it raises
    [WebSocketDisconnect], or it raises another exception. *)
Inductive ws_outcome : Type :=
| Returns
| Disconnects
| Fails.

(** Where the handler of a connection stands: in its receive loop, returned
    after [except WebSocketDisconnect], or left by an exception that the
    handler does not catch. *)
Inductive handler : Type :=
| Waiting
| Closed
| Aborted.

(** [websocket_endpoint] up to its receive loop: register ([accept] is
    taken to return), then send the stored snapshot if there is one.  [send]
    tells how that [send_text] ends. *)
Definition websocket_open (st : State) (ws : nat) (send : ws_outcome)
  : State * list event * handler :=
  let registered :=
    {| _latest_snapshot := _latest_snapshot st;
       active := connect (active st) ws |} in
  match _latest_snapshot st with
  | None => (registered, [], Waiting)
  | Some snapshot =>
      match send with
      | Returns =>
          (registered,
           [Sent ws {| m_type := "topology"; m_data := snapshot |}], Waiting)
      | Disconnects =>
          ({| _latest_snapshot := _latest_snapshot st;
              active := disconnect (active registered) ws |}, [], Closed)
      | Fails => (registered, [], Aborted)
      end
  end.

(** One [await websocket.receive_text()] of the loop. *)
Definition websocket_receive (st : State) (ws : nat) (received : ws_outcome)
  : State * handler :=
  match received with
  | Returns => (st, Waiting)
  | Disconnects =>
      ({| _latest_snapshot := _latest_snapshot st;
          active := disconnect (active st) ws |}, Closed)
  | Fails => (st, Aborted)
  end.

(** * Notions used in the statements *)

(** The label of the edge between [u] and [v], read from [u]'s side. *)
Definition edge_label (G : nx.Graph) (u v : string) : option string :=
  od_get (nx.nbrs (nx._adj G) u) v.

(** The representation invariant of an undirected graph. *)
Record wf (G : nx.Graph) : Prop := {
  wf_keys : od_keys (nx._adj G) = od_keys (nx._node G);
  wf_nodup : NoDup (od_keys (nx._node G));
  wf_adj_nodup : forall n, NoDup (od_keys (nx.nbrs (nx._adj G) n));
  wf_closed : forall u v l, edge_label G u v = Some l ->
      In u (od_keys (nx._node G)) /\ In v (od_keys (nx._node G));
  wf_sym : forall u v l, edge_label G u v = Some l -> edge_label G v u = Some l
}.

(** Two triples [(from, to, label)] join the same unordered pair of nodes. *)
Definition same_ends (a b : string * string * string) : Prop :=
  (fst (fst a) = fst (fst b) /\ snd (fst a) = snd (fst b)) \/
  (fst (fst a) = snd (fst b) /\ snd (fst a) = fst (fst b)).

Definition joins_b (a b u v : string) : bool :=
  (String.eqb a u && String.eqb b v) || (String.eqb a v && String.eqb b u).

(** The address part of a prefix and the node id built from it (Part 1c). *)
Definition ip_of (prefix : string) : string := hd "" (split "/" prefix).

Definition node_id_of (prefix : string) : string :=
  ("R" ++ last (split "." (ip_of prefix)) "")%string.

(** One iteration of the node loop and of the link loop, as functions. *)
Definition node_step (G : nx.Graph) (prefix : string) : nx.Graph :=
  nx.add_node G (node_id_of prefix) (ip_of prefix).

Definition link_named (s : string) : option (string * string * string) :=
  match link_of_prefix s with
  | Ok (Some t) => Some t
  | _ => None
  end.

Definition link_step (G : nx.Graph) (s : string) : nx.Graph :=
  match link_named s with
  | Some (x, y, l) =>
      if nx.has_node G x && nx.has_node G y then nx.add_edge G x y l else G
  | None => G
  end.

(** The label link string [s] gives to the edge between [a] and [b], when it
    names that pair and both nodes are among [known]. *)
Definition names (known : odict (option string)) (s : string) (a b : string)
  : option string :=
  match link_named s with
  | Some (x, y, l) =>
      if od_mem known x && od_mem known y && joins_b a b x y then Some l
      else None
  | None => None
  end.

(** One step of the label an edge ends with, over the link strings. *)
Definition relabel (known : odict (option string)) (a b : string)
  (acc : option string) (s : string) : option string :=
  match names known s a b with
  | Some l => Some l
  | None => acc
  end.

(** An edge of a snapshot joins [u] and [v], in either direction. *)
Definition joins (e : Edge) (u v : string) : Prop :=
  (e_from e = u /\ e_to e = v) \/ (e_from e = v /\ e_to e = u).

Definition same_pair (e1 e2 : Edge) : Prop := joins e1 (e_from e2) (e_to e2).

Definition ids (snap : Snapshot) : list string := map id (nodes snap).


(** The strings the scan of Part 2a returns when it returns: the scan without
    its count of frames. *)
Fixpoint found_strings (data : json) (pattern : string)
  (found_set : list string) : list string :=
  match data with
  | JObj d =>
      (fix values (l : list (string * json)) (acc : list string) :=
         match l with
         | [] => acc
         | kv :: l' => values l' (found_strings (snd kv) pattern acc)
         end) d found_set
  | JArr items =>
      (fix each (l : list json) (acc : list string) :=
         match l with
         | [] => acc
         | item :: l' => each l' (found_strings item pattern acc)
         end) items found_set
  | JStr s => if startswith s pattern then set_add s found_set else found_set
  | _ => found_set
  end.

(** The nesting of a document: 1 for a scalar, one more than its deepest
    member for a list or an object.  It is the number of frames the scan
    needs. *)
Fixpoint depth (data : json) : nat :=
  match data with
  | JObj d =>
      S ((fix deepest (l : list (string * json)) : nat :=
            match l with
            | [] => 0
            | kv :: l' => Nat.max (depth (snd kv)) (deepest l')
            end) d)
  | JArr items =>
      S ((fix deepest (l : list json) : nat :=
            match l with
            | [] => 0
            | item :: l' => Nat.max (depth item) (deepest l')
            end) items)
  | _ => 1
  end.

(** The graph the builder holds after both loops, given the outcome of
    Part 1a ([lp]) and of the set comprehension of Part 1b ([fr]), when the
    scan returns. *)
Definition built (ord : SetOrder string) (lp : option string)
  (fr : list string) (bgp_data : json) : nx.Graph :=
  fold_left link_step
    (set_iter ord (found_strings bgp_data "10.85." []))
    (fold_left node_step (set_iter ord (add_local lp fr)) nx.empty).

(** ** Inputs of the examples *)

Definition route (p : string) : odict json := route_of (JStr p).

(** Two router loopbacks and a document that holds link strings only. *)
Definition two_routers : list (odict json) :=
  [route "192.168.7.1/32"; route "192.168.7.2/32"].

Definition links_doc (links : list string) : json :=
  JObj [("topology", JObj [("links", JArr (map JStr links))])].

(** A document whose first peer has the identifier [peer_id]. *)
Definition peer_doc (peer_id : json) : json :=
  JObj [("bgp-rib:rib", JArr [JObj [("peer", JArr [JObj [("peer-id", peer_id)]])]])].

(** The two routers joined by one edge with the given label. *)
Definition linked_snapshot (l : string) : Snapshot :=
  {| nodes := [{| id := "R1"; label := "192.168.7.1" |};
               {| id := "R2"; label := "192.168.7.2" |}];
     edges := [{| e_from := "R1"; e_to := "R2"; e_label := l |}] |}.

Definition r3_snapshot : Snapshot :=
  {| nodes := [{| id := "R3"; label := "192.168.7.3" |}]; edges := [] |}.

(** The end-to-end document: the first peer is [bgp://192.168.7.1], its
    received routes are the two loopbacks, and a link string sits in the
    attributes of the second route. *)
Definition end_to_end_doc : json :=
  JObj [("bgp-rib:rib", JArr [JObj [("peer", JArr [JObj [
    ("peer-id", JStr "bgp://192.168.7.1");
    ("effective-rib-in", JObj [("tables", JArr [JObj [
       ("bgp-inet:ipv4-routes", JObj [("ipv4-route", JArr [
          JObj [("prefix", JStr "192.168.7.1/32")];
          JObj [("prefix", JStr "192.168.7.2/32");
                ("attributes", JObj [("ipv4-next-hop",
                   JObj [("global", JStr "10.85.12.5/32")])])]])])]])])]])]])].

(** The snapshot the end-to-end property of the specification announces. *)
Definition announced_snapshot : Snapshot :=
  {| nodes := [{| id := "R1"; label := "192.168.7.1" |};
               {| id := "R2"; label := "192.168.7.2" |}];
     edges := [{| e_from := "R1"; e_to := "R2"; e_label := "10.85.12.0/30" |}] |}.

(** The two snapshots the builder does produce for it. *)
Definition end_to_end_snapshot : Snapshot :=
  {| nodes := [{| id := "R1"; label := "192.168.7.1" |};
               {| id := "R2"; label := "192.168.7.2" |}];
     edges := [{| e_from := "R1"; e_to := "R2"; e_label := "10.85.12.5/30" |}] |}.

Definition end_to_end_snapshot_rev : Snapshot :=
  {| nodes := [{| id := "R2"; label := "192.168.7.2" |};
               {| id := "R1"; label := "192.168.7.1" |}];
     edges := [{| e_from := "R2"; e_to := "R1"; e_label := "10.85.12.5/30" |}] |}.

(** ** Change detection *)

(** Equality of snapshots as the specification defines it: the same nodes
    and the same edges, whatever the order of the lists. *)
Definition snapshot_set_eq (a b : Snapshot) : Prop :=
  (forall n, In n (nodes a) <-> In n (nodes b)) /\
  (forall e, In e (edges a) <-> In e (edges b)).

(** The number of calls of [manager.broadcast] in a trace. *)
Fixpoint broadcasts (events : list event) : nat :=
  match events with
  | [] => 0
  | Broadcast _ :: rest => S (broadcasts rest)
  | _ :: rest => broadcasts rest
  end.

Definition topology_message (graph : Snapshot) : Message :=
  {| m_type := "topology"; m_data := graph |}.

(** ** Fetch failure *)

(** The two failures [fetch_bgp_data] handles: the controller answered with
    a status other than 200, or the connection to it could not be made. *)
Definition handled_failure (r : response) : Prop :=
  match r with
  | Response status _ => status <> 200%Z
  | ClientConnectorError => True
  | RequestRaises _ => False
  end.

(** The specification's account of a failed fetch, to compare with
    [fetch_topology]: the cycle substitutes an empty document, and Extract and
    Build still run on it. *)
Definition spec_failed_fetch_snapshot (ordr : SetOrder json)
  (ords : SetOrder string) (frames : nat) : result Snapshot :=
  let empty_document := JObj [] in
  build_dynamic_topology ords frames (extract_routes ordr empty_document)
    empty_document.

(** ** Routing-table documents *)

(** A document with the given tables of local routes and the given peers. *)
Definition rib_doc (loc_tables peers : list json) : json :=
  JObj [("bgp-rib:rib",
         JArr [JObj [("loc-rib", JObj [("tables", JArr loc_tables)]);
                     ("peer", JArr peers)]])].

Definition table_of (prefixes : list string) : json :=
  JObj [("bgp-inet:ipv4-routes",
         JObj [("ipv4-route",
                JArr (map (fun p => JObj [("prefix", JStr p)]) prefixes))])].






















(** ** Traces *)

(** The number of [asyncio.sleep] calls in a trace. *)
Fixpoint sleeps (events : list event) : nat :=
  match events with
  | [] => 0
  | Sleep :: rest => S (sleeps rest)
  | _ :: rest => sleeps rest
  end.

(** ** Documents and strings *)

(** [s] is a string value of the document, at any depth (keys of objects are
    not values). *)
Fixpoint occurs (s : string) (data : json) : Prop :=
  match data with
  | JStr t => t = s
  | JArr items =>
      (fix any (l : list json) : Prop :=
         match l with
         | [] => False
         | item :: l' => occurs s item \/ any l'
         end) items
  | JObj d =>
      (fix any (l : list (string * json)) : Prop :=
         match l with
         | [] => False
         | kv :: l' => occurs s (snd kv) \/ any l'
         end) d
  | _ => False
  end.

(** What the scan adds to the strings found so far. *)
Definition scan_spec (pattern : string) (data : json) : Prop :=
  forall acc, NoDup acc ->
    NoDup (found_strings data pattern acc) /\
    (exists new, found_strings data pattern acc = acc ++ new) /\
    forall s, In s (found_strings data pattern acc) <->
      In s acc \/ (occurs s data /\ startswith s pattern = true).

(** The string holds no slash. *)
Fixpoint no_slash (s : string) : bool :=
  match s with
  | EmptyString => true
  | String c s' => negb (Ascii.eqb c "/") && no_slash s'
  end.

(** A peer as the controller reports it: an optional identifier and the
    tables of the routes received from it, each a list of prefixes. *)
Definition bgp_peer (p : option string * list (list string)) : json :=
  JObj ((match fst p with
         | Some peer_id => [("peer-id", JStr peer_id)]
         | None => []
         end)
        ++ [("effective-rib-in",
             JObj [("tables", JArr (map table_of (snd p)))])]).

(** A routing-table document of the expected shape, and the prefixes it
    advertises. *)
Definition bgp_doc (loc : list (list string))
  (peers : list (option string * list (list string))) : json :=
  rib_doc (map table_of loc) (map bgp_peer peers).

Definition advertised (loc : list (list string))
  (peers : list (option string * list (list string))) : list string :=
  concat loc ++ concat (map (fun p => concat (snd p)) peers).

(** What the set of routes keeps: hashable prefixes, no two of them equal
    for Python. *)
Definition distinct_prefixes (vs : list json) : Prop :=
  NoDup vs /\ Forall (fun v => hashable v = true) vs /\
  forall a b, In a vs -> In b vs -> py_eqb a b = true -> a = b.

(** The local prefix Part 1a derives from a document of the expected shape:
    the one of its first peer, when that peer has an identifier. *)
Definition local_of (peers : list (option string * list (list string)))
  : option string :=
  match peers with
  | (Some peer_id, _) :: _ => Some (last (split "//" peer_id) "" ++ "/32")%string
  | _ => None
  end.

(** * Facts *)

(** ** Strings *)

Example split_slash : split "/" "10.85.12.5/32" = ["10.85.12.5"; "32"].
Proof. reflexivity. Qed.

Example split_dot : split "." "10.85.12.5" = ["10"; "85"; "12"; "5"].
Proof. reflexivity. Qed.

Example split_scheme : split "//" "bgp://192.168.7.1" = ["bgp:"; "192.168.7.1"].
Proof. reflexivity. Qed.

Example split_overlap : split "//" "a///b" = ["a"; "/b"].
Proof. reflexivity. Qed.

Example split_none : split "//" "garbage" = ["garbage"].
Proof. reflexivity. Qed.

Example split_empty : split "/" "" = [""].
Proof. reflexivity. Qed.

Example endswith_32 : endswith "192.168.7.3/32" "/32" = true.
Proof. reflexivity. Qed.

Example endswith_short : endswith "32" "/32" = false.
Proof. reflexivity. Qed.

(** ** Ordered dictionaries and sets *)

Ltac case_eqb a b :=
  let E := fresh "E" in
  destruct (String.eqb a b) eqn:E;
  [apply String.eqb_eq in E; try subst | apply String.eqb_neq in E].

Lemma mem_str_In (x : string) (s : list string) :
  mem_str x s = true <-> In x s.
Proof.
  unfold mem_str. rewrite existsb_exists. split.
  - intros [y [Hy E]]. apply String.eqb_eq in E. now subst.
  - intros H. exists x. split; [assumption | apply String.eqb_refl].
Qed.

Lemma mem_str_false (x : string) (s : list string) :
  mem_str x s = false <-> ~ In x s.
Proof.
  rewrite <- mem_str_In. destruct (mem_str x s); split; congruence.
Qed.

Lemma set_add_In (x y : string) (s : list string) :
  In y (set_add x s) <-> y = x \/ In y s.
Proof.
  unfold set_add. destruct (mem_str x s) eqn:E.
  - apply mem_str_In in E. split; [tauto | intros [-> | H]; assumption].
  - rewrite in_app_iff. simpl. intuition congruence.
Qed.

Lemma set_add_NoDup (x : string) (s : list string) :
  NoDup s -> NoDup (set_add x s).
Proof.
  intros H. unfold set_add. destruct (mem_str x s) eqn:E; [assumption |].
  apply mem_str_false in E.
  apply NoDup_rev in H. rewrite <- (rev_involutive (s ++ [x])).
  apply NoDup_rev. rewrite rev_app_distr. simpl. constructor; [| assumption].
  now rewrite <- in_rev.
Qed.

Section OdictFacts.
Context {V : Type}.
Implicit Types (d : odict V) (k : string) (v : V).

Lemma od_get_set_eq d k v : od_get (od_set d k v) k = Some v.
Proof.
  induction d as [| [k' v'] d IH]; simpl.
  - now rewrite String.eqb_refl.
  - case_eqb k' k; simpl.
    + now rewrite String.eqb_refl.
    + apply String.eqb_neq in E. now rewrite E.
Qed.

Lemma od_get_set_neq d k k' v :
  k <> k' -> od_get (od_set d k v) k' = od_get d k'.
Proof.
  intros N. induction d as [| [k0 v0] d IH]; simpl.
  - apply String.eqb_neq in N. now rewrite N.
  - case_eqb k0 k; simpl.
    + apply String.eqb_neq in N. now rewrite N.
    + now rewrite IH.
Qed.

Lemma od_mem_In d k : od_mem d k = true <-> In k (od_keys d).
Proof.
  unfold od_mem. induction d as [| [k' v'] d IH]; simpl.
  - split; [discriminate | tauto].
  - case_eqb k' k.
    + split; auto.
    + rewrite IH. split; [auto | intros [C | H]; [contradiction | assumption]].
Qed.

Lemma od_mem_false d k : od_mem d k = false <-> ~ In k (od_keys d).
Proof.
  rewrite <- od_mem_In. destruct (od_mem d k); split; congruence.
Qed.

Lemma od_get_None d k : od_get d k = None <-> ~ In k (od_keys d).
Proof.
  rewrite <- od_mem_false. unfold od_mem.
  destruct (od_get d k); split; congruence.
Qed.

Lemma od_keys_set d k v :
  od_keys (od_set d k v) = if od_mem d k then od_keys d else od_keys d ++ [k].
Proof.
  unfold od_mem. induction d as [| [k' v'] d IH]; simpl; [reflexivity |].
  case_eqb k' k; simpl; [reflexivity |].
  rewrite IH. now destruct (od_get d k).
Qed.

Lemma od_keys_set_In d k v k' :
  In k' (od_keys (od_set d k v)) <-> k' = k \/ In k' (od_keys d).
Proof.
  rewrite od_keys_set. destruct (od_mem d k) eqn:E.
  - apply od_mem_In in E. split; [tauto | intros [-> | H]; assumption].
  - rewrite in_app_iff. simpl. intuition congruence.
Qed.

Lemma od_get_In d k v : od_get d k = Some v -> In (k, v) d.
Proof.
  induction d as [| [k' v'] d IH]; simpl; [discriminate |].
  case_eqb k' k.
  - intros [= ->]. now left.
  - intros H. right. now apply IH.
Qed.

Lemma od_In_keys d k v : In (k, v) d -> In k (od_keys d).
Proof. intros H. apply (in_map fst) in H. exact H. Qed.

Lemma od_In_get d k v : NoDup (od_keys d) -> In (k, v) d -> od_get d k = Some v.
Proof.
  induction d as [| [k' v'] d IH]; simpl; [tauto |].
  intros ND [E | H].
  - injection E as -> ->. now rewrite String.eqb_refl.
  - inversion ND as [| ? ? Hk ND']; subst.
    case_eqb k' k.
    + exfalso. apply Hk. eapply od_In_keys; eassumption.
    + now apply IH.
Qed.

Lemma od_set_NoDup d k v : NoDup (od_keys d) -> NoDup (od_keys (od_set d k v)).
Proof.
  induction d as [| [k' v'] d IH]; simpl; intros ND.
  - constructor; [tauto | constructor].
  - inversion ND as [| ? ? Hk ND']; subst.
    case_eqb k' k; simpl.
    + now constructor.
    + constructor; [| now apply IH].
      rewrite od_keys_set_In. intros [C | C]; [congruence | contradiction].
Qed.

Lemma od_set_In d k v k' v' :
  In (k', v') (od_set d k v) -> (k' = k /\ v' = v) \/ In (k', v') d.
Proof.
  induction d as [| [k0 v0] d IH]; simpl.
  - intros [E | []]. injection E as <- <-. now left.
  - case_eqb k0 k; simpl.
    + intros [Q | H]; [injection Q as <- <-; now left | right; now right].
    + intros [Q | H]; [right; now left |].
      destruct (IH H) as [? | ?]; [now left | right; now right].
Qed.
End OdictFacts.

(** ** Graphs *)

Lemma nbrs_set_eq (adj : odict (odict string)) (k : string) (d : odict string) :
  nx.nbrs (od_set adj k d) k = d.
Proof. unfold nx.nbrs. now rewrite od_get_set_eq. Qed.

Lemma nbrs_set_neq (adj : odict (odict string)) (k k' : string) (d : odict string) :
  k <> k' -> nx.nbrs (od_set adj k d) k' = nx.nbrs adj k'.
Proof. intros N. unfold nx.nbrs. now rewrite od_get_set_neq. Qed.

Lemma nbrs_In (adj : odict (odict string)) (n : string) (d : odict string) :
  NoDup (od_keys adj) -> In (n, d) adj -> nx.nbrs adj n = d.
Proof. intros ND H. unfold nx.nbrs. now rewrite (od_In_get _ _ _ ND H). Qed.

Lemma nbrs_absent (adj : odict (odict string)) (n : string) :
  ~ In n (od_keys adj) -> nx.nbrs adj n = [].
Proof. intros H. apply od_get_None in H. unfold nx.nbrs. now rewrite H. Qed.

Lemma wf_empty : wf nx.empty.
Proof.
  constructor; simpl; try constructor; unfold edge_label; simpl; discriminate.
Qed.

Lemma has_node_In (G : nx.Graph) (n : string) :
  nx.has_node G n = true <-> In n (od_keys (nx._node G)).
Proof. apply od_mem_In. Qed.

Lemma add_node_keys (G : nx.Graph) (n l : string) (m : string) :
  In m (od_keys (nx._node (nx.add_node G n l))) <->
  m = n \/ In m (od_keys (nx._node G)).
Proof.
  unfold nx.add_node. destruct (od_mem (nx._node G) n); simpl;
    apply od_keys_set_In.
Qed.

Lemma add_node_nbrs (G : nx.Graph) (n l : string) (m : string) :
  wf G -> nx.nbrs (nx._adj (nx.add_node G n l)) m = nx.nbrs (nx._adj G) m.
Proof.
  intros W. unfold nx.add_node. destruct (od_mem (nx._node G) n) eqn:E; simpl.
  - reflexivity.
  - apply od_mem_false in E. rewrite <- (wf_keys G W) in E.
    case_eqb n m.
    + now rewrite nbrs_set_eq, nbrs_absent.
    + now apply nbrs_set_neq.
Qed.

Lemma add_node_edge_label (G : nx.Graph) (n l : string) (u v : string) :
  wf G -> edge_label (nx.add_node G n l) u v = edge_label G u v.
Proof. intros W. unfold edge_label. now rewrite add_node_nbrs. Qed.

Lemma add_node_wf (G : nx.Graph) (n l : string) : wf G -> wf (nx.add_node G n l).
Proof.
  intros W. constructor.
  - unfold nx.add_node. destruct (od_mem (nx._node G) n) eqn:E; simpl.
    + rewrite od_keys_set, E. apply (wf_keys G W).
    + rewrite !od_keys_set, E.
      replace (od_mem (nx._adj G) n) with false; [now rewrite (wf_keys G W) |].
      symmetry. apply od_mem_false. rewrite (wf_keys G W).
      now apply od_mem_false.
  - unfold nx.add_node. destruct (od_mem (nx._node G) n); simpl;
      apply od_set_NoDup, (wf_nodup G W).
  - intros m. rewrite add_node_nbrs by assumption. apply (wf_adj_nodup G W).
  - intros u v l'. rewrite add_node_edge_label by assumption. intros H.
    destruct (wf_closed G W _ _ _ H). rewrite !add_node_keys. tauto.
  - intros u v l'. rewrite !add_node_edge_label by assumption.
    apply (wf_sym G W).
Qed.

Lemma touch_present (G : nx.Graph) (n : string) :
  nx.has_node G n = true -> nx.touch_node G n = G.
Proof. unfold nx.touch_node, nx.has_node. now intros ->. Qed.

(** With both endpoints known, [add_edge] leaves the nodes alone. *)
Lemma add_edge_node (G : nx.Graph) (u v l : string) :
  nx.has_node G u = true -> nx.has_node G v = true ->
  nx._node (nx.add_edge G u v l) = nx._node G.
Proof.
  intros Hu Hv. unfold nx.add_edge. now rewrite (touch_present G u Hu), (touch_present G v Hv).
Qed.

Lemma add_edge_nbrs (G : nx.Graph) (u v l : string) (a : string) :
  nx.has_node G u = true -> nx.has_node G v = true ->
  nx.nbrs (nx._adj (nx.add_edge G u v l)) a =
  let d1 := if String.eqb a u then od_set (nx.nbrs (nx._adj G) a) v l
            else nx.nbrs (nx._adj G) a in
  if String.eqb a v then od_set d1 u l else d1.
Proof.
  intros Hu Hv. unfold nx.add_edge.
  rewrite (touch_present G u Hu), (touch_present G v Hv). simpl.
  case_eqb a v.
  - rewrite nbrs_set_eq. case_eqb v u.
    + now rewrite nbrs_set_eq.
    + rewrite nbrs_set_neq by congruence. reflexivity.
  - rewrite nbrs_set_neq by congruence. case_eqb a u.
    + now rewrite nbrs_set_eq.
    + rewrite nbrs_set_neq by congruence. reflexivity.
Qed.

Lemma add_edge_edge_label (G : nx.Graph) (u v l : string) (a b : string) :
  nx.has_node G u = true -> nx.has_node G v = true ->
  edge_label (nx.add_edge G u v l) a b =
  if joins_b a b u v then Some l else edge_label G a b.
Proof.
  intros Hu Hv. unfold edge_label, joins_b. rewrite add_edge_nbrs by assumption.
  cbv zeta.
  destruct (String.eqb a v) eqn:Eav, (String.eqb a u) eqn:Eau,
           (String.eqb b u) eqn:Ebu, (String.eqb b v) eqn:Ebv; simpl;
    repeat match goal with
           | H : String.eqb _ _ = true |- _ => apply String.eqb_eq in H
           | H : String.eqb _ _ = false |- _ => apply String.eqb_neq in H
           end;
    subst;
    repeat first [rewrite od_get_set_eq | rewrite od_get_set_neq by congruence];
    congruence.
Qed.

Lemma joins_b_true (a b u v : string) :
  joins_b a b u v = true <-> (a = u /\ b = v) \/ (a = v /\ b = u).
Proof.
  unfold joins_b. rewrite orb_true_iff, !andb_true_iff, !String.eqb_eq. tauto.
Qed.

Lemma joins_b_sym (a b u v : string) : joins_b a b u v = joins_b b a u v.
Proof.
  unfold joins_b.
  destruct (String.eqb a u), (String.eqb b v), (String.eqb a v), (String.eqb b u);
    reflexivity.
Qed.

Lemma add_edge_wf (G : nx.Graph) (u v l : string) :
  nx.has_node G u = true -> nx.has_node G v = true ->
  wf G -> wf (nx.add_edge G u v l).
Proof.
  intros Hu Hv W. constructor.
  - rewrite add_edge_node by assumption. unfold nx.add_edge.
    rewrite (touch_present G u Hu), (touch_present G v Hv). simpl.
    assert (Ku : od_mem (nx._adj G) u = true).
    { apply od_mem_In. rewrite (wf_keys G W). now apply has_node_In. }
    assert (Kv : od_mem (nx._adj G) v = true).
    { apply od_mem_In. rewrite (wf_keys G W). now apply has_node_In. }
    rewrite od_keys_set.
    replace (od_mem (od_set (nx._adj G) u _) v) with true.
    + rewrite od_keys_set, Ku. apply (wf_keys G W).
    + symmetry. apply od_mem_In, od_keys_set_In. right. now apply od_mem_In.
  - rewrite add_edge_node by assumption. apply (wf_nodup G W).
  - intros n. rewrite add_edge_nbrs by assumption. cbv zeta.
    pose proof (wf_adj_nodup G W n) as ND.
    destruct (String.eqb n v), (String.eqb n u);
      repeat apply od_set_NoDup; assumption.
  - intros a b l'. rewrite add_edge_edge_label, add_edge_node by assumption.
    destruct (joins_b a b u v) eqn:J.
    + intros _. apply has_node_In in Hu, Hv.
      apply joins_b_true in J as [[-> ->] | [-> ->]]; tauto.
    + apply (wf_closed G W).
  - intros a b l'. rewrite !add_edge_edge_label by assumption.
    rewrite (joins_b_sym b a). destruct (joins_b a b u v); [tauto |].
    apply (wf_sym G W).
Qed.

(** *** The edge view *)

Lemma edges_from_In (seen : list string) (adj : odict (odict string))
  (a b l : string) :
  In (a, b, l) (nx.edges_from seen adj) <->
  exists adj1 d adj2,
    adj = adj1 ++ (a, d) :: adj2 /\ In (b, l) d /\
    ~ In b seen /\ ~ In b (od_keys adj1).
Proof.
  revert seen. induction adj as [| [n d0] adj' IH]; intros seen; simpl.
  - split; [tauto |]. intros (adj1 & d & adj2 & H & _).
    destruct adj1; discriminate.
  - rewrite in_app_iff, in_map_iff. split.
    + intros [([b' l'] & Q & Hf) | H].
      * simpl in Q. injection Q as -> -> ->.
        apply filter_In in Hf as [Hin Hneg]. simpl in Hneg.
        apply negb_true_iff, mem_str_false in Hneg.
        exists [], d0, adj'. simpl. tauto.
      * apply IH in H as (adj1 & d & adj2 & -> & Hin & Hs & Hk).
        exists ((n, d0) :: adj1), d, adj2. simpl in *. tauto.
    + intros (adj1 & d & adj2 & Q & Hin & Hs & Hk).
      destruct adj1 as [| p adj1]; simpl in Q; inversion Q; subst.
      * left. exists (b, l). split; [reflexivity |].
        apply filter_In. split; [assumption |]. simpl.
        now apply negb_true_iff, mem_str_false.
      * right. apply IH. exists adj1, d, adj2. simpl in *. tauto.
Qed.

Lemma FOP_app {A : Type} (R : A -> A -> Prop) (l1 l2 : list A) :
  ForallOrdPairs R l1 -> ForallOrdPairs R l2 ->
  (forall a b, In a l1 -> In b l2 -> R a b) ->
  ForallOrdPairs R (l1 ++ l2).
Proof.
  intros H1 H2 Hx. induction H1 as [| a l Ha Hl IH]; simpl; [assumption |].
  constructor.
  - apply Forall_app. split; [assumption |].
    apply Forall_forall. intros b Hb. apply Hx; [now left | assumption].
  - apply IH. intros x y Hxl Hy. apply Hx; [now right | assumption].
Qed.

Lemma FOP_map {A B : Type} (R : B -> B -> Prop) (f : A -> B) (l : list A) :
  ForallOrdPairs (fun x y => R (f x) (f y)) l -> ForallOrdPairs R (map f l).
Proof.
  induction 1 as [| a l Ha Hl IH]; simpl; constructor; [| assumption].
  apply Forall_map. exact Ha.
Qed.

Lemma nbr_part_unique (n : string) (f : string * string -> bool)
  (d : odict string) :
  NoDup (od_keys d) ->
  ForallOrdPairs (fun x y => ~ same_ends x y)
    (map (fun vl => (n, fst vl, snd vl)) (filter f d)).
Proof.
  induction d as [| [k v] d IH]; simpl; intros ND; [constructor |].
  inversion ND as [| ? ? Hk ND']; subst.
  destruct (f (k, v)); simpl; [| now apply IH].
  constructor; [| now apply IH].
  apply Forall_forall. intros x Hx. apply in_map_iff in Hx as ([k' v'] & <- & Hf).
  apply filter_In in Hf as [Hin _]. apply od_In_keys in Hin.
  unfold same_ends. simpl. intros [[_ Q] | [Q1 Q2]]; congruence.
Qed.

Lemma edges_from_unique (seen : list string) (adj : odict (odict string)) :
  NoDup (od_keys adj) ->
  (forall n d, In (n, d) adj -> NoDup (od_keys d)) ->
  ForallOrdPairs (fun x y => ~ same_ends x y) (nx.edges_from seen adj).
Proof.
  revert seen. induction adj as [| [n d0] adj' IH]; intros seen ND Hd; simpl.
  - constructor.
  - inversion ND as [| ? ? Hn ND']; subst. apply FOP_app.
    + apply nbr_part_unique. apply (Hd n d0). now left.
    + apply IH; [assumption |]. intros m d Hm. apply (Hd m d). now right.
    + intros x [[a' b'] l'] Hx Hy.
      apply in_map_iff in Hx as ([k v] & <- & _).
      apply edges_from_In in Hy as (adj1 & d & adj2 & Q & _ & Hs & _).
      assert (Ha : In a' (od_keys adj')).
      { subst adj'. unfold od_keys. rewrite map_app, in_app_iff. simpl. tauto. }
      unfold same_ends. simpl in *. intros [[Q1 _] | [Q1 _]]; subst; tauto.
Qed.

Lemma wf_adj_entries (G : nx.Graph) (n : string) (d : odict string) :
  wf G -> In (n, d) (nx._adj G) -> nx.nbrs (nx._adj G) n = d.
Proof.
  intros W H. apply nbrs_In; [| assumption].
  rewrite (wf_keys G W). apply (wf_nodup G W).
Qed.

Lemma edges_unique (G : nx.Graph) :
  wf G -> ForallOrdPairs (fun x y => ~ same_ends x y) (nx.edges G).
Proof.
  intros W. apply edges_from_unique.
  - rewrite (wf_keys G W). apply (wf_nodup G W).
  - intros n d H. rewrite <- (wf_adj_entries G n d W H). apply (wf_adj_nodup G W).
Qed.

(** An edge is reported from the endpoint that comes first in node order. *)
Lemma edges_In (G : nx.Graph) (a b l : string) :
  wf G ->
  (In (a, b, l) (nx.edges G) <->
   edge_label G a b = Some l /\
   exists k1 k2, od_keys (nx._node G) = k1 ++ a :: k2 /\ ~ In b k1).
Proof.
  intros W. unfold nx.edges. rewrite edges_from_In. split.
  - intros (adj1 & d & adj2 & Q & Hin & _ & Hk).
    assert (Hd : nx.nbrs (nx._adj G) a = d).
    { apply wf_adj_entries; [assumption |]. rewrite Q. apply in_elt. }
    split.
    + unfold edge_label. rewrite Hd. apply od_In_get; [| assumption].
      rewrite <- Hd. apply (wf_adj_nodup G W).
    + exists (od_keys adj1), (od_keys adj2). split; [| assumption].
      rewrite <- (wf_keys G W), Q. unfold od_keys. now rewrite map_app.
  - intros [Hl (k1 & k2 & Q & Hk)].
    rewrite <- (wf_keys G W) in Q. unfold od_keys in Q.
    apply map_eq_app in Q as (adj1 & r & Q & Q1 & Q2).
    apply map_eq_cons in Q2 as ([a' d] & adj2 & -> & Qa & Q2).
    simpl in Qa. subst a'.
    exists adj1, d, adj2. split; [assumption |].
    assert (Hd : nx.nbrs (nx._adj G) a = d).
    { apply wf_adj_entries; [assumption |]. rewrite Q. apply in_elt. }
    split; [| split; [tauto |]].
    + rewrite <- Hd. now apply od_get_In.
    + unfold od_keys. now rewrite Q1.
Qed.

Lemma edges_label (G : nx.Graph) (a b l : string) :
  wf G -> In (a, b, l) (nx.edges G) -> edge_label G a b = Some l.
Proof. intros W H. now apply (edges_In G a b l W) in H. Qed.

(** Every edge of the graph is reported, in one direction or the other. *)
Lemma edges_complete (G : nx.Graph) (u v l : string) :
  wf G -> edge_label G u v = Some l ->
  In (u, v, l) (nx.edges G) \/ In (v, u, l) (nx.edges G).
Proof.
  intros W H. destruct (wf_closed G W _ _ _ H) as [Hu Hv].
  apply in_split in Hu as (k1 & k2 & Q).
  destruct (in_dec string_dec v k1) as [I | I].
  - right. apply edges_In; [assumption |]. split; [now apply (wf_sym G W) |].
    apply in_split in I as (k1a & k1b & ->).
    exists k1a, (k1b ++ u :: k2). split.
    + rewrite Q, <- app_assoc. reflexivity.
    + pose proof (wf_nodup G W) as ND. rewrite Q, <- app_assoc in ND.
      simpl in ND. intros C.
      apply in_split in C as (x & y & ->).
      rewrite <- app_assoc in ND. simpl in ND.
      apply NoDup_remove_2 in ND. apply ND.
      rewrite !in_app_iff. simpl. rewrite in_app_iff. simpl. tauto.
  - left. apply edges_In; [assumption |]. split; [assumption |].
    now exists k1, k2.
Qed.

(** ** The builder *)

Lemma split_from_nonempty (sep : string) (skip : nat) (cur s : string) :
  split_from sep skip cur s <> [].
Proof.
  revert skip cur. induction s as [| c s IH]; intros skip cur; cbn [split_from].
  - discriminate.
  - destruct skip; [| apply IH].
    destruct (String.prefix sep (String c s)); [discriminate | apply IH].
Qed.

Lemma split_nonempty (sep s : string) : split sep s <> [].
Proof. apply split_from_nonempty. Qed.

Lemma list_nth_0 (l : list string) : l <> [] -> list_nth l 0 = Ok (hd "" l).
Proof. destruct l; [congruence | reflexivity]. Qed.

Lemma list_last_ok (l : list string) : l <> [] -> list_last l = Ok (last l "").
Proof.
  intros N. unfold list_last. destruct l as [| x l] using rev_ind; [congruence |].
  now rewrite rev_app_distr, last_last.
Qed.

Lemma node_of_prefix_ok (p : string) :
  node_of_prefix p = Ok (node_id_of p, ip_of p).
Proof.
  unfold node_of_prefix. rewrite list_nth_0 by apply split_nonempty. simpl.
  rewrite list_last_ok by apply split_nonempty. reflexivity.
Qed.

Lemma add_prefix_node_step (G : nx.Graph) (p : string) :
  add_prefix_node G p = Ok (node_step G p).
Proof. unfold add_prefix_node. now rewrite node_of_prefix_ok. Qed.

Lemma add_nodes_fold (G : nx.Graph) (ps : list string) :
  add_nodes G ps = Ok (fold_left node_step ps G).
Proof.
  revert G. induction ps as [| p ps IH]; intros G; simpl; [reflexivity |].
  rewrite add_prefix_node_step. simpl. apply IH.
Qed.

Lemma link_of_prefix_raise (s : string) (e : exn) :
  link_of_prefix s = Raise e -> e = IndexError.
Proof.
  unfold link_of_prefix, list_nth, bind.
  destruct (nth_error (split "/" s) 0) as [a |]; [| congruence].
  destruct (nth_error (split "." a) 2) as [t |]; [| congruence].
  destruct t as [| x [| y [| z t]]]; discriminate.
Qed.

Lemma add_link_step (G : nx.Graph) (s : string) :
  add_link G s = Ok (link_step G s).
Proof.
  unfold add_link, link_step, link_named.
  destruct (link_of_prefix s) as [[[[x y] l] |] | e] eqn:E; simpl.
  - now destruct (nx.has_node G x && nx.has_node G y).
  - reflexivity.
  - now rewrite (link_of_prefix_raise s e E).
Qed.

Lemma add_links_fold (G : nx.Graph) (ls : list string) :
  add_links G ls = Ok (fold_left link_step ls G).
Proof.
  revert G. induction ls as [| s ls IH]; intros G; simpl; [reflexivity |].
  rewrite add_link_step. simpl. apply IH.
Qed.

(** *** The node loop *)

Lemma nodes_fold_wf (ps : list string) (G : nx.Graph) :
  wf G -> wf (fold_left node_step ps G).
Proof.
  revert G. induction ps as [| p ps IH]; intros G W; simpl; [assumption |].
  apply IH, add_node_wf, W.
Qed.

Lemma nodes_fold_keys (ps : list string) (G : nx.Graph) (n : string) :
  In n (od_keys (nx._node (fold_left node_step ps G))) <->
  In n (od_keys (nx._node G)) \/ exists p, In p ps /\ n = node_id_of p.
Proof.
  revert G. induction ps as [| p ps IH]; intros G; simpl.
  - split; [tauto | intros [H | (p & [] & _)]; assumption].
  - rewrite IH. unfold node_step. rewrite add_node_keys. split.
    + intros [[-> | H] | (q & Hq & ->)]; eauto 6.
    + intros [H | (q & [<- | Hq] & ->)]; eauto 6.
Qed.

Lemma add_node_attr (G : nx.Graph) (n l : string) (k : string)
  (a : option string) :
  In (k, a) (nx._node (nx.add_node G n l)) ->
  (k = n /\ a = Some l) \/ In (k, a) (nx._node G).
Proof.
  unfold nx.add_node. destruct (od_mem (nx._node G) n); simpl; apply od_set_In.
Qed.

Lemma nodes_fold_attr (ps : list string) (G : nx.Graph) (k : string)
  (a : option string) :
  In (k, a) (nx._node (fold_left node_step ps G)) ->
  In (k, a) (nx._node G) \/
  exists p, In p ps /\ k = node_id_of p /\ a = Some (ip_of p).
Proof.
  revert G. induction ps as [| p ps IH]; intros G; simpl; [tauto |].
  intros H. apply IH in H as [H | (q & Hq & -> & ->)]; [| eauto 6].
  apply add_node_attr in H as [[-> ->] | H]; eauto 6.
Qed.

Lemma nodes_fold_edge_label (ps : list string) (G : nx.Graph) (u v : string) :
  wf G -> edge_label (fold_left node_step ps G) u v = edge_label G u v.
Proof.
  revert G. induction ps as [| p ps IH]; intros G W; simpl; [reflexivity |].
  rewrite IH by now apply add_node_wf. now apply add_node_edge_label.
Qed.

(** *** The link loop *)

Lemma link_step_node (G : nx.Graph) (s : string) :
  nx._node (link_step G s) = nx._node G.
Proof.
  unfold link_step. destruct (link_named s) as [[[x y] l] |]; [| reflexivity].
  destruct (nx.has_node G x) eqn:Hx, (nx.has_node G y) eqn:Hy; cbn [andb];
    try reflexivity.
  now apply add_edge_node.
Qed.

Lemma link_step_wf (G : nx.Graph) (s : string) : wf G -> wf (link_step G s).
Proof.
  intros W. unfold link_step.
  destruct (link_named s) as [[[x y] l] |]; [| assumption].
  destruct (nx.has_node G x) eqn:Hx, (nx.has_node G y) eqn:Hy; cbn [andb];
    try assumption.
  now apply add_edge_wf.
Qed.

Lemma link_step_label (G : nx.Graph) (s : string) (a b : string) :
  edge_label (link_step G s) a b =
  match names (nx._node G) s a b with
  | Some l => Some l
  | None => edge_label G a b
  end.
Proof.
  unfold link_step, names, nx.has_node.
  destruct (link_named s) as [[[x y] l] |]; [| reflexivity].
  destruct (od_mem (nx._node G) x) eqn:Hx, (od_mem (nx._node G) y) eqn:Hy;
    cbn [andb]; try reflexivity.
  rewrite add_edge_edge_label by assumption.
  now destruct (joins_b a b x y).
Qed.

Lemma links_fold_node (ls : list string) (G : nx.Graph) :
  nx._node (fold_left link_step ls G) = nx._node G.
Proof.
  revert G. induction ls as [| s ls IH]; intros G; simpl; [reflexivity |].
  rewrite IH. apply link_step_node.
Qed.

Lemma links_fold_wf (ls : list string) (G : nx.Graph) :
  wf G -> wf (fold_left link_step ls G).
Proof.
  revert G. induction ls as [| s ls IH]; intros G W; simpl; [assumption |].
  apply IH, link_step_wf, W.
Qed.

Lemma links_fold_label (ls : list string) (G : nx.Graph) (a b : string) :
  edge_label (fold_left link_step ls G) a b =
  fold_left (relabel (nx._node G) a b) ls (edge_label G a b).
Proof.
  revert G. induction ls as [| s ls IH]; intros G; simpl; [reflexivity |].
  rewrite IH, link_step_node, link_step_label. reflexivity.
Qed.

(** The label that survives is the one of the last string naming the pair. *)
Lemma relabel_last (known : odict (option string)) (a b : string)
  (ls : list string) (l : string) :
  fold_left (relabel known a b) ls None = Some l ->
  exists l1 s l2,
    ls = l1 ++ s :: l2 /\ names known s a b = Some l /\
    forall s', In s' l2 -> names known s' a b = None.
Proof.
  induction ls as [| s ls IH] using rev_ind; simpl; [discriminate |].
  rewrite fold_left_app. simpl. unfold relabel at 1.
  destruct (names known s a b) as [l' |] eqn:E.
  - intros [= ->]. exists ls, s, []. split; [reflexivity |]. split; [assumption |].
    intros s' [].
  - intros H. apply IH in H as (l1 & s0 & l2 & -> & Hn & Hl).
    exists l1, s0, (l2 ++ [s]). split; [now rewrite <- app_assoc |].
    split; [assumption |]. intros s' Hs'. apply in_app_iff in Hs' as [Hs' | [<- | []]];
      [now apply Hl | assumption].
Qed.

Lemma relabel_some (known : odict (option string)) (a b : string)
  (ls : list string) (s : string) (l : string) (acc : option string) :
  In s ls -> names known s a b = Some l ->
  exists l', fold_left (relabel known a b) ls acc = Some l'.
Proof.
  revert acc. induction ls as [| s0 ls IH] using rev_ind; intros acc; [intros [] |].
  rewrite fold_left_app. simpl. intros Hin Hn. unfold relabel at 1.
  destruct (names known s0 a b) as [l0 |] eqn:E; [eauto |].
  apply in_app_iff in Hin as [Hin | [<- | []]]; [now apply IH | congruence].
Qed.

(** *** The scan and its frames *)

Section JsonInduction.
Variable P : json -> Prop.
Hypothesis HNull : P JNull.
Hypothesis HBool : forall b, P (JBool b).
Hypothesis HNum : forall n, P (JNum n).
Hypothesis HStr : forall s, P (JStr s).
Hypothesis HArr : forall items, Forall P items -> P (JArr items).
Hypothesis HObj : forall d, Forall (fun kv => P (snd kv)) d -> P (JObj d).

Fixpoint json_nested_ind (v : json) : P v :=
  match v with
  | JNull => HNull
  | JBool b => HBool b
  | JNum n => HNum n
  | JStr s => HStr s
  | JArr items =>
      HArr items
        ((fix all (l : list json) : Forall P l :=
            match l with
            | [] => Forall_nil P
            | x :: l' => Forall_cons x (json_nested_ind x) (all l')
            end) items)
  | JObj d =>
      HObj d
        ((fix all (l : list (string * json))
            : Forall (fun kv => P (snd kv)) l :=
            match l with
            | [] => Forall_nil _
            | kv :: l' => Forall_cons kv (json_nested_ind (snd kv)) (all l')
            end) d)
  end.
End JsonInduction.

Lemma leb_max (a b n : nat) :
  Nat.leb (Nat.max a b) n = Nat.leb a n && Nat.leb b n.
Proof.
  apply eq_true_iff_eq. rewrite andb_true_iff, !Nat.leb_le. lia.
Qed.

(** The scan returns exactly when the nesting of the document fits in the
    frames available, and raises [RecursionError] otherwise. *)
Lemma scan_frames (pattern : string) (data : json) :
  forall (frames : nat) (acc : list string),
  find_prefixes_recursively frames data pattern acc =
  if Nat.leb (depth data) frames then Ok (found_strings data pattern acc)
  else Raise RecursionError.
Proof.
  induction data using json_nested_ind; intros frames acc;
    destruct frames as [| m]; try reflexivity.
  - cbn [find_prefixes_recursively depth found_strings Nat.leb].
    revert acc. induction H as [| item items Hitem _ IH]; intros acc;
      [reflexivity |].
    rewrite (Hitem m acc), leb_max.
    destruct (Nat.leb (depth item) m); [| reflexivity].
    cbn [bind andb]. apply IH.
  - cbn [find_prefixes_recursively depth found_strings Nat.leb].
    revert acc. induction H as [| kv d Hkv _ IH]; intros acc;
      [reflexivity |].
    rewrite (Hkv m acc), leb_max.
    destruct (Nat.leb (depth (snd kv)) m); [| reflexivity].
    cbn [bind andb]. apply IH.
Qed.

Lemma scan_ok (pattern : string) (data : json) (frames : nat)
  (acc : list string) :
  depth data <= frames ->
  find_prefixes_recursively frames data pattern acc
  = Ok (found_strings data pattern acc).
Proof.
  intros H. rewrite scan_frames. apply Nat.leb_le in H. now rewrite H.
Qed.

Lemma scan_ok_inv (pattern : string) (data : json) (frames : nat)
  (acc found : list string) :
  find_prefixes_recursively frames data pattern acc = Ok found ->
  depth data <= frames /\ found = found_strings data pattern acc.
Proof.
  rewrite scan_frames. destruct (Nat.leb (depth data) frames) eqn:E;
    [| discriminate].
  intros [= <-]. split; [now apply Nat.leb_le | reflexivity].
Qed.

Lemma scan_raise (pattern : string) (data : json) (frames : nat)
  (acc : list string) :
  frames < depth data ->
  find_prefixes_recursively frames data pattern acc = Raise RecursionError.
Proof.
  intros H. rewrite scan_frames.
  replace (Nat.leb (depth data) frames) with false; [reflexivity |].
  symmetry. apply Nat.leb_gt. exact H.
Qed.

(** *** The whole function *)

Lemma build_ok (ord : SetOrder string) (frames : nat)
  (routes : list (odict json)) (doc : json) (lp : option string)
  (fr : list string) :
  find_local_ip_prefix doc = Ok lp ->
  node_prefix_set routes [] = Ok fr ->
  depth doc <= frames ->
  build_dynamic_topology ord frames routes doc
  = Ok (to_snapshot (built ord lp fr doc)).
Proof.
  intros H1 H2 H3. unfold build_dynamic_topology. rewrite H1, H2.
  cbn [bind]. rewrite add_nodes_fold. cbn [bind].
  rewrite (scan_ok _ _ _ _ H3). cbn [bind].
  rewrite add_links_fold. reflexivity.
Qed.

(** When Part 1a and Part 1b return, the builder raises exactly when the
    scan does. *)
Lemma build_too_deep (ord : SetOrder string) (frames : nat)
  (routes : list (odict json)) (doc : json) (lp : option string)
  (fr : list string) :
  find_local_ip_prefix doc = Ok lp ->
  node_prefix_set routes [] = Ok fr ->
  frames < depth doc ->
  build_dynamic_topology ord frames routes doc = Raise RecursionError.
Proof.
  intros H1 H2 H3. unfold build_dynamic_topology. rewrite H1, H2.
  cbn [bind]. rewrite add_nodes_fold. cbn [bind].
  now rewrite (scan_raise _ _ _ _ H3).
Qed.

Lemma build_inv (ord : SetOrder string) (frames : nat)
  (routes : list (odict json)) (doc : json) (snap : Snapshot) :
  build_dynamic_topology ord frames routes doc = Ok snap ->
  exists lp fr,
    find_local_ip_prefix doc = Ok lp /\ node_prefix_set routes [] = Ok fr /\
    depth doc <= frames /\
    snap = to_snapshot (built ord lp fr doc).
Proof.
  intros H.
  destruct (find_local_ip_prefix doc) as [lp | e] eqn:H1;
    [| unfold build_dynamic_topology in H; rewrite H1 in H; discriminate].
  destruct (node_prefix_set routes []) as [fr | e] eqn:H2;
    [| unfold build_dynamic_topology in H; rewrite H1, H2 in H; discriminate].
  destruct (Nat.le_gt_cases (depth doc) frames) as [H3 | H3].
  - rewrite (build_ok ord frames routes doc lp fr H1 H2 H3) in H.
    injection H as <-. now exists lp, fr.
  - rewrite (build_too_deep ord frames routes doc lp fr H1 H2 H3) in H.
    discriminate.
Qed.

(** The link strings the builder worked on, for a build that returned. *)
Lemma build_scan (ord : SetOrder string) (frames : nat)
  (routes : list (odict json)) (doc : json) (snap : Snapshot) :
  build_dynamic_topology ord frames routes doc = Ok snap ->
  find_prefixes_recursively frames doc "10.85." []
  = Ok (found_strings doc "10.85." []).
Proof.
  intros H. destruct (build_inv _ _ _ _ _ H) as (lp & fr & _ & _ & D & _).
  now apply scan_ok.
Qed.

Lemma built_wf (ord : SetOrder string) (lp : option string) (fr : list string)
  (doc : json) : wf (built ord lp fr doc).
Proof. apply links_fold_wf, nodes_fold_wf, wf_empty. Qed.

Lemma built_node (ord : SetOrder string) (lp : option string)
  (fr : list string) (doc : json) :
  nx._node (built ord lp fr doc) =
  nx._node (fold_left node_step (set_iter ord (add_local lp fr)) nx.empty).
Proof. apply links_fold_node. Qed.

Lemma ids_to_snapshot (G : nx.Graph) :
  ids (to_snapshot G) = od_keys (nx._node G).
Proof.
  unfold ids, to_snapshot, nx.nodes, od_keys. simpl. rewrite !map_map.
  reflexivity.
Qed.

Lemma set_iter_In {A : Type} (ord : SetOrder A) (l : list A) (x : A) :
  In x (set_iter ord l) <-> In x l.
Proof.
  split; apply Permutation_in;
    [apply set_iter_perm | apply Permutation_sym, set_iter_perm].
Qed.

Lemma built_ids (ord : SetOrder string) (lp : option string)
  (fr : list string) (doc : json) (n : string) :
  In n (ids (to_snapshot (built ord lp fr doc))) <->
  exists p, In p (add_local lp fr) /\ n = node_id_of p.
Proof.
  rewrite ids_to_snapshot, built_node, nodes_fold_keys. simpl. split.
  - intros [[] | (p & Hp & ->)]. exists p. now rewrite set_iter_In in Hp.
  - intros (p & Hp & ->). right. exists p. now rewrite set_iter_In.
Qed.

Lemma built_nodes (ord : SetOrder string) (lp : option string)
  (fr : list string) (doc : json) (n : Node) :
  In n (nodes (to_snapshot (built ord lp fr doc))) ->
  exists p, In p (add_local lp fr) /\ id n = node_id_of p /\ label n = ip_of p.
Proof.
  unfold to_snapshot, nx.nodes. simpl. rewrite map_map, built_node.
  intros H. apply in_map_iff in H as ([k a] & <- & H). simpl.
  apply nodes_fold_attr in H as [[] | (p & Hp & -> & ->)].
  exists p. now rewrite set_iter_In in Hp.
Qed.

Lemma edges_to_snapshot (G : nx.Graph) (e : Edge) :
  In e (edges (to_snapshot G)) <->
  In (e_from e, e_to e, e_label e) (nx.edges G).
Proof.
  unfold to_snapshot. simpl. rewrite in_map_iff. split.
  - intros ([[a b] l] & <- & H). exact H.
  - intros H. exists (e_from e, e_to e, e_label e). split; [| assumption].
    now destruct e.
Qed.

Lemma FOP_impl {A : Type} (R S : A -> A -> Prop) (l : list A) :
  (forall x y, R x y -> S x y) -> ForallOrdPairs R l -> ForallOrdPairs S l.
Proof.
  intros HRS. induction 1 as [| a l Ha Hl IH]; constructor; [| assumption].
  eapply Forall_impl; [| exact Ha]. apply HRS.
Qed.

Lemma snapshot_edges_unique (G : nx.Graph) :
  wf G ->
  ForallOrdPairs (fun e1 e2 => ~ same_pair e1 e2) (edges (to_snapshot G)).
Proof.
  intros W. unfold to_snapshot. simpl. apply FOP_map.
  eapply FOP_impl; [| apply edges_unique, W].
  intros [[a b] l] [[a' b'] l'] H. exact H.
Qed.

(** The edges of the built graph, read off the link strings. *)
Lemma built_edge_label (ord : SetOrder string) (lp : option string)
  (fr : list string) (doc : json) (a b : string) :
  edge_label (built ord lp fr doc) a b =
  fold_left (relabel (nx._node (built ord lp fr doc)) a b)
    (set_iter ord (found_strings doc "10.85." [])) None.
Proof.
  rewrite built_node. unfold built. rewrite links_fold_label.
  rewrite nodes_fold_edge_label by apply wf_empty. reflexivity.
Qed.

Lemma names_some (known : odict (option string)) (s a b l : string) :
  names known s a b = Some l <->
  exists x y, link_named s = Some (x, y, l) /\
    In x (od_keys known) /\ In y (od_keys known) /\
    ((a = x /\ b = y) \/ (a = y /\ b = x)).
Proof.
  unfold names. destruct (link_named s) as [[[x y] l0] |].
  - split.
    + destruct (od_mem known x) eqn:Hx, (od_mem known y) eqn:Hy,
        (joins_b a b x y) eqn:J; simpl; try discriminate.
      intros [= ->]. exists x, y. apply od_mem_In in Hx, Hy.
      apply joins_b_true in J. tauto.
    + intros (x' & y' & Q & H1 & H2 & H3). injection Q as -> -> ->.
      apply od_mem_In in H1, H2. apply joins_b_true in H3.
      now rewrite H1, H2, H3.
  - split; [discriminate | intros (x & y & Q & _); discriminate].
Qed.

Lemma link_named_iff (s : string) (t : string * string * string) :
  link_named s = Some t <-> link_of_prefix s = Ok (Some t).
Proof.
  unfold link_named. destruct (link_of_prefix s) as [[t' |] | e]; split;
    congruence.
Qed.

Lemma node_prefix_set_In (routes : list (odict json)) (acc fr : list string) :
  node_prefix_set routes acc = Ok fr ->
  forall p, In p fr <->
    In p acc \/
    exists r, In r routes /\ get_prefix r = JStr p /\
      startswith p "192.168.7." = true /\ endswith p "/32" = true.
Proof.
  revert acc. induction routes as [| r routes IH]; intros acc; simpl.
  - intros [= <-] p. split; [tauto | intros [H | (r & [] & _)]; assumption].
  - destruct (get_prefix r) as [| | | q | |] eqn:E; try discriminate.
    intros H p.
    assert (K : exists acc',
               node_prefix_set routes acc' = Ok fr /\
               forall x, In x acc' <->
                 In x acc \/
                 (x = q /\ startswith q "192.168.7." = true /\
                  endswith q "/32" = true)).
    { destruct (startswith q "192.168.7."), (endswith q "/32"); simpl in H.
      - exists (set_add q acc). split; [assumption |].
        intros x. rewrite set_add_In. tauto.
      - exists acc. split; [assumption |]. intros x.
        split; [tauto | intros [? | (_ & _ & ?)]; [assumption | discriminate]].
      - exists acc. split; [assumption |]. intros x.
        split; [tauto | intros [? | (_ & ? & _)]; [assumption | discriminate]].
      - exists acc. split; [assumption |]. intros x.
        split; [tauto | intros [? | (_ & ? & _)]; [assumption | discriminate]]. }
    destruct K as (acc' & H' & Hacc). rewrite (IH _ H' p), Hacc. split.
    + intros [[Hp | (-> & Hs & He)] | (r' & Hr & Hq)].
      * now left.
      * right. exists r. tauto.
      * right. exists r'. tauto.
    + intros [Hp | (r' & [<- | Hr] & Hq & Hs & He)].
      * left. now left.
      * rewrite E in Hq. injection Hq as <-. left. right. tauto.
      * right. exists r'. tauto.
Qed.

Lemma add_local_In (lp : option string) (fr : list string) (p : string) :
  In p fr -> In p (add_local lp fr).
Proof.
  intros H. unfold add_local. destruct lp as [q |]; [| assumption].
  destruct (String.eqb q ""); [assumption |]. apply set_add_In. now right.
Qed.

Lemma add_node_get (G : nx.Graph) (n l k : string) :
  od_get (nx._node (nx.add_node G n l)) k =
  if String.eqb n k then Some (Some l) else od_get (nx._node G) k.
Proof.
  unfold nx.add_node.
  destruct (od_mem (nx._node G) n); simpl; case_eqb n k;
    try apply od_get_set_eq; now apply od_get_set_neq.
Qed.

Lemma nodes_fold_get (ps : list string) (G : nx.Graph) (k : string) :
  od_get (nx._node (fold_left node_step ps G)) k =
  fold_left (fun acc p =>
               if String.eqb (node_id_of p) k then Some (Some (ip_of p))
               else acc)
    ps (od_get (nx._node G) k).
Proof.
  revert G. induction ps as [| p ps IH]; intros G; simpl; [reflexivity |].
  rewrite IH. unfold node_step. now rewrite add_node_get.
Qed.

Lemma last_candidate (k : string) (ps : list string) (a : option string) :
  fold_left (fun acc p =>
               if String.eqb (node_id_of p) k then Some (Some (ip_of p))
               else acc) ps None = Some a ->
  exists l1 p l2,
    ps = l1 ++ p :: l2 /\ node_id_of p = k /\ a = Some (ip_of p) /\
    forall q, In q l2 -> node_id_of q <> k.
Proof.
  induction ps as [| p ps IH] using rev_ind; [discriminate |].
  rewrite fold_left_app. cbn [fold_left].
  destruct (String.eqb (node_id_of p) k) eqn:E.
  - intros H. injection H as H. subst a. apply String.eqb_eq in E.
    exists ps, p, []. split; [reflexivity |]. split; [assumption |].
    split; [reflexivity | intros q []].
  - intros H. apply IH in H as (l1 & p0 & l2 & -> & Hk & Ha & Hl).
    exists l1, p0, (l2 ++ [p]). split; [now rewrite <- app_assoc |].
    split; [assumption |]. split; [assumption |].
    intros q Hq. apply in_app_iff in Hq as [Hq | [<- | []]];
      [now apply Hl | now apply String.eqb_neq].
Qed.

(** Every node of a built graph carries the address of the last candidate,
    in processing order, that maps to its id. *)
Lemma built_nodes_last (ord : SetOrder string) (lp : option string)
  (fr : list string) (doc : json) (n : Node) :
  In n (nodes (to_snapshot (built ord lp fr doc))) ->
  exists l1 p l2,
    set_iter ord (add_local lp fr) = l1 ++ p :: l2 /\
    id n = node_id_of p /\ label n = ip_of p /\
    forall q, In q l2 -> node_id_of q <> id n.
Proof.
  intros Hn. unfold to_snapshot, nx.nodes in Hn. simpl in Hn.
  rewrite map_map in Hn. apply in_map_iff in Hn as ([k a] & <- & Hin).
  simpl. pose proof (built_wf ord lp fr doc) as W.
  apply (od_In_get _ _ _ (wf_nodup _ W)) in Hin.
  rewrite built_node, nodes_fold_get in Hin. simpl in Hin.
  apply last_candidate in Hin as (l1 & p & l2 & Q & Hk & -> & Hl).
  exists l1, p, l2. now split.
Qed.

(** * The claims *)

(** C7.  In every build, the endpoints of every edge are nodes of the same
    snapshot; a link string whose third octet is the two characters [x], [y]
    has an edge between [R<x>] and [R<y>] in the snapshot if and only if both
    ids are among the snapshot's nodes; and every node id comes from a
    candidate prefix of Part 1b, never from an edge. *)
Theorem edge_iff_both_endpoints_exist :
  forall (ord : SetOrder string) (frames : nat)
         (routes : list (odict json)) (doc : json)
         (snap : Snapshot),
  build_dynamic_topology ord frames routes doc = Ok snap ->
  exists found,
  find_prefixes_recursively frames doc "10.85." [] = Ok found /\
  (forall e, In e (edges snap) ->
     In (e_from e) (ids snap) /\ In (e_to e) (ids snap)) /\
  (forall s x y l,
     In s found ->
     link_of_prefix s = Ok (Some (x, y, l)) ->
     ((exists e, In e (edges snap) /\ joins e x y) <->
      (In x (ids snap) /\ In y (ids snap)))) /\
  (exists lp fr,
     find_local_ip_prefix doc = Ok lp /\ node_prefix_set routes [] = Ok fr /\
     forall n, In n (ids snap) ->
       exists p, In p (add_local lp fr) /\ n = node_id_of p).
Proof.
  intros ord frames routes doc snap H.
  exists (found_strings doc "10.85." []).
  split; [exact (build_scan ord frames routes doc snap H) |].
  destruct (build_inv ord frames routes doc snap H)
    as (lp & fr & H1 & H2 & D & ->).
  pose proof (built_wf ord lp fr doc) as W. set (G := built ord lp fr doc) in *.
  assert (Hends : forall e, In e (edges (to_snapshot G)) ->
            In (e_from e) (ids (to_snapshot G)) /\ In (e_to e) (ids (to_snapshot G))).
  { intros e He. apply edges_to_snapshot, (edges_label G _ _ _ W) in He.
    rewrite ids_to_snapshot. exact (wf_closed G W _ _ _ He). }
  split; [exact Hends |]. split.
  - intros s x y l Hs Hl. split.
    + intros (e & He & [[<- <-] | [<- <-]]); destruct (Hends e He); tauto.
    + intros [Hx Hy]. rewrite ids_to_snapshot in Hx, Hy.
      assert (Hn : names (nx._node G) s x y = Some l).
      { apply names_some. exists x, y. rewrite link_named_iff. tauto. }
      destruct (relabel_some (nx._node G) x y
                  (set_iter ord (found_strings doc "10.85." []))
                  s l None) as [l' Hl']; [now apply set_iter_In | assumption |].
      unfold G in Hl' at 1. rewrite <- built_edge_label in Hl'. fold G in Hl'.
      destruct (edges_complete G x y l' W Hl') as [He | He].
      * exists {| e_from := x; e_to := y; e_label := l' |}.
        split; [now apply edges_to_snapshot | left; now split].
      * exists {| e_from := y; e_to := x; e_label := l' |}.
        split; [now apply edges_to_snapshot | right; now split].
  - exists lp, fr. split; [assumption |]. split; [assumption |].
    intros n Hn. now apply built_ids in Hn.
Qed.

Lemma edge_iff_both_endpoints_exist_witness :
  build_dynamic_topology (insertion_order string) 1000 two_routers
    (links_doc ["10.85.12.0/30"; "10.85.13.0/30"])
  = Ok (linked_snapshot "10.85.12.0/30") /\
  ((exists e, In e (edges (linked_snapshot "10.85.12.0/30")) /\
              joins e "R1" "R2") <->
   (In "R1" (ids (linked_snapshot "10.85.12.0/30")) /\
    In "R2" (ids (linked_snapshot "10.85.12.0/30")))) /\
  ((exists e, In e (edges (linked_snapshot "10.85.12.0/30")) /\
              joins e "R1" "R3") <->
   (In "R1" (ids (linked_snapshot "10.85.12.0/30")) /\
    In "R3" (ids (linked_snapshot "10.85.12.0/30")))).
Proof.
  assert (H : build_dynamic_topology (insertion_order string) 1000 two_routers
                (links_doc ["10.85.12.0/30"; "10.85.13.0/30"])
              = Ok (linked_snapshot "10.85.12.0/30"))
    by (vm_compute; reflexivity).
  destruct (edge_iff_both_endpoints_exist _ _ _ _ _ H) as (found & F & _ & T & _).
  vm_compute in F. injection F as <-.
  split; [exact H |]. split.
  - apply (T "10.85.12.0/30" "R1" "R2" "10.85.12.0/30");
      [vm_compute; tauto | reflexivity].
  - apply (T "10.85.13.0/30" "R1" "R3" "10.85.13.0/30");
      [vm_compute; tauto | reflexivity].
Defined.

(** C8.  In every snapshot the builder produces the node ids are pairwise
    distinct, and every route prefix that passes the node filter has exactly
    one node carrying its id, however many routes or other prefixes map to
    that id; in particular a routes list that holds ["192.168.7.3/32"] (once
    or several times) yields exactly one node [R3]. *)
Theorem node_ids_unique :
  forall (ord : SetOrder string) (frames : nat)
         (routes : list (odict json)) (doc : json)
         (snap : Snapshot),
  build_dynamic_topology ord frames routes doc = Ok snap ->
  NoDup (ids snap) /\
  (forall r p, In r routes -> get_prefix r = JStr p ->
     startswith p "192.168.7." = true -> endswith p "/32" = true ->
     count_occ string_dec (ids snap) (node_id_of p) = 1) /\
  (In (route "192.168.7.3/32") routes ->
     count_occ string_dec (ids snap) "R3" = 1).
Proof.
  intros ord frames routes doc snap H.
  destruct (build_inv ord frames routes doc snap H)
    as (lp & fr & H1 & H2 & D & ->).
  pose proof (built_wf ord lp fr doc) as W.
  assert (ND : NoDup (ids (to_snapshot (built ord lp fr doc)))).
  { rewrite ids_to_snapshot. apply (wf_nodup _ W). }
  assert (Hone : forall r p, In r routes -> get_prefix r = JStr p ->
            startswith p "192.168.7." = true -> endswith p "/32" = true ->
            count_occ string_dec (ids (to_snapshot (built ord lp fr doc)))
              (node_id_of p) = 1).
  { intros r p Hr Hp Hs He.
    apply (proj1 (NoDup_count_occ' string_dec _) ND).
    apply built_ids. exists p. split; [| reflexivity].
    apply add_local_In, (node_prefix_set_In routes [] fr H2 p).
    right. exists r. tauto. }
  split; [exact ND |]. split; [exact Hone |].
  intros Hr. apply (Hone (route "192.168.7.3/32") "192.168.7.3/32" Hr);
    reflexivity.
Qed.

Lemma node_ids_unique_witness :
  build_dynamic_topology (insertion_order string) 1000
    [route "192.168.7.3/32"; route "192.168.7.3/32"] (JObj [])
  = Ok r3_snapshot /\
  NoDup (ids r3_snapshot) /\
  count_occ string_dec (ids r3_snapshot) "R3" = 1.
Proof.
  assert (H : build_dynamic_topology (insertion_order string) 1000
                [route "192.168.7.3/32"; route "192.168.7.3/32"] (JObj [])
              = Ok r3_snapshot) by (vm_compute; reflexivity).
  pose proof (node_ids_unique _ _ _ _ _ H) as (ND & _ & T).
  split; [exact H |]. split; [exact ND | apply T; now left].
Defined.

(** C10.  Every snapshot the builder produces has at most one edge per
    unordered pair of endpoint ids: no two entries of the edge list join the
    same two nodes, in either direction.  The label of an edge is the one
    derived from the last link string, in processing order, whose third-octet
    characters name the edge's endpoints in either order; no later link
    string names them. *)
Theorem one_edge_per_pair :
  forall (ord : SetOrder string) (frames : nat)
         (routes : list (odict json)) (doc : json)
         (snap : Snapshot),
  build_dynamic_topology ord frames routes doc = Ok snap ->
  exists found,
  find_prefixes_recursively frames doc "10.85." [] = Ok found /\
  ForallOrdPairs (fun e1 e2 => ~ same_pair e1 e2) (edges snap) /\
  (forall e, In e (edges snap) ->
     exists l1 s l2 x y,
       set_iter ord found = l1 ++ s :: l2 /\
       link_of_prefix s = Ok (Some (x, y, e_label e)) /\
       joins e x y /\
       forall s' x' y' l', In s' l2 ->
         link_of_prefix s' = Ok (Some (x', y', l')) -> ~ joins e x' y').
Proof.
  intros ord frames routes doc snap H.
  exists (found_strings doc "10.85." []).
  split; [exact (build_scan ord frames routes doc snap H) |].
  destruct (build_inv ord frames routes doc snap H)
    as (lp & fr & H1 & H2 & D & ->).
  pose proof (built_wf ord lp fr doc) as W.
  split; [now apply snapshot_edges_unique |].
  intros e He. apply edges_to_snapshot, (edges_label _ _ _ _ W) in He.
  destruct (wf_closed _ W _ _ _ He) as [Ka Kb].
  rewrite built_edge_label in He.
  apply relabel_last in He as (l1 & s & l2 & Q & Hn & Hlater).
  apply names_some in Hn as (x & y & Hl & Hx & Hy & J).
  exists l1, s, l2, x, y. split; [assumption |].
  split; [now apply link_named_iff |]. split; [exact J |].
  intros s' x' y' l' Hs' Hl' J'.
  assert (C : names (nx._node (built ord lp fr doc)) s' (e_from e) (e_to e)
              = Some l').
  { apply names_some. exists x', y'. rewrite link_named_iff.
    split; [assumption |]. unfold joins in J'.
    destruct J' as [[<- <-] | [<- <-]]; tauto. }
  rewrite (Hlater s' Hs') in C. discriminate.
Qed.

Lemma one_edge_per_pair_witness :
  build_dynamic_topology (insertion_order string) 1000 two_routers
    (links_doc ["10.85.12.0/30"; "10.85.21.0/24"])
  = Ok (linked_snapshot "10.85.21.0/30") /\
  ForallOrdPairs (fun e1 e2 => ~ same_pair e1 e2)
    (edges (linked_snapshot "10.85.21.0/30")) /\
  exists l1 s l2 x y,
    ["10.85.12.0/30"; "10.85.21.0/24"] = l1 ++ s :: l2 /\
    link_of_prefix s = Ok (Some (x, y, "10.85.21.0/30")) /\
    joins {| e_from := "R1"; e_to := "R2"; e_label := "10.85.21.0/30" |} x y /\
    forall s' x' y' l', In s' l2 ->
      link_of_prefix s' = Ok (Some (x', y', l')) ->
      ~ joins {| e_from := "R1"; e_to := "R2"; e_label := "10.85.21.0/30" |} x' y'.
Proof.
  assert (H : build_dynamic_topology (insertion_order string) 1000 two_routers
                (links_doc ["10.85.12.0/30"; "10.85.21.0/24"])
              = Ok (linked_snapshot "10.85.21.0/30"))
    by (vm_compute; reflexivity).
  destruct (one_edge_per_pair _ _ _ _ _ H) as (found & F & U & T).
  vm_compute in F. injection F as <-.
  split; [exact H |]. split; [exact U |].
  apply (T {| e_from := "R1"; e_to := "R2"; e_label := "10.85.21.0/30" |}).
  now left.
Defined.

(** C5 (as amended).  Node construction skips no candidate prefix: whatever
    the shape of its address, every member of the candidate set has in the
    snapshot the node whose id is ["R"] followed by the text after the last
    dot of its address part (the text before the first slash).  Every node of
    the snapshot is built that way from a candidate, and its label is the
    address part of the last candidate, in processing order, that maps to its
    id; so a candidate that shares its id with no other candidate contributes
    the node labelled with its own address part.  No candidate aborts the
    build: once Part 1a and Part 1b have produced the candidate set, and the
    document is nested no deeper than the frames left for the recursive scan
    of Part 2a, the builder returns a snapshot. *)
Theorem node_construction_keeps_every_candidate :
  forall (ord : SetOrder string) (frames : nat)
         (routes : list (odict json)) (doc : json)
         (lp : option string) (fr : list string),
  find_local_ip_prefix doc = Ok lp ->
  node_prefix_set routes [] = Ok fr ->
  depth doc <= frames ->
  exists snap,
    build_dynamic_topology ord frames routes doc = Ok snap /\
    (forall p, In p (add_local lp fr) ->
       exists n, In n (nodes snap) /\ id n = node_id_of p) /\
    (forall n, In n (nodes snap) ->
       exists l1 p l2,
         set_iter ord (add_local lp fr) = l1 ++ p :: l2 /\
         id n = node_id_of p /\ label n = ip_of p /\
         forall q, In q l2 -> node_id_of q <> id n) /\
    (forall p, In p (add_local lp fr) ->
       (forall q, In q (add_local lp fr) ->
          node_id_of q = node_id_of p -> q = p) ->
       In {| id := node_id_of p; label := ip_of p |} (nodes snap)).
Proof.
  intros ord frames routes doc lp fr H1 H2 D.
  exists (to_snapshot (built ord lp fr doc)).
  split; [now apply build_ok |].
  assert (Hid : forall p, In p (add_local lp fr) ->
            exists n, In n (nodes (to_snapshot (built ord lp fr doc))) /\
                      id n = node_id_of p).
  { intros p Hp.
    assert (Hin : In (node_id_of p) (ids (to_snapshot (built ord lp fr doc))))
      by (apply built_ids; now exists p).
    unfold ids in Hin. apply in_map_iff in Hin as (n & Hn & Hin).
    now exists n. }
  split; [exact Hid |]. split; [apply built_nodes_last |].
  intros p Hp Hone. destruct (Hid p Hp) as (n & Hn & Hnid).
  destruct (built_nodes_last ord lp fr doc n Hn)
    as (l1 & q & l2 & Q & Hq & Hl & _).
  assert (Hqin : In q (add_local lp fr)).
  { apply (set_iter_In ord). rewrite Q. apply in_elt. }
  assert (E : q = p) by (apply Hone; [assumption | congruence]).
  subst q. destruct n as [i l]. simpl in Hnid, Hl. now subst i l.
Qed.

Lemma node_construction_keeps_every_candidate_witness :
  exists snap,
    build_dynamic_topology (insertion_order string) 1000
      [route "192.168.7.abc/32"; route "192.168.7./32"; route "192.168.7.1.2/32"]
      (JObj []) = Ok snap /\
    (forall p, In p ["192.168.7.abc/32"; "192.168.7./32"; "192.168.7.1.2/32"] ->
       exists n, In n (nodes snap) /\ id n = node_id_of p) /\
    (forall n, In n (nodes snap) ->
       exists l1 p l2,
         ["192.168.7.abc/32"; "192.168.7./32"; "192.168.7.1.2/32"]
         = l1 ++ p :: l2 /\
         id n = node_id_of p /\ label n = ip_of p /\
         forall q, In q l2 -> node_id_of q <> id n) /\
    (forall p, In p ["192.168.7.abc/32"; "192.168.7./32"; "192.168.7.1.2/32"] ->
       (forall q, In q ["192.168.7.abc/32"; "192.168.7./32"; "192.168.7.1.2/32"] ->
          node_id_of q = node_id_of p -> q = p) ->
       In {| id := node_id_of p; label := ip_of p |} (nodes snap)).
Proof.
  apply (node_construction_keeps_every_candidate (insertion_order string) 1000
           [route "192.168.7.abc/32"; route "192.168.7./32";
            route "192.168.7.1.2/32"] (JObj []) None
           ["192.168.7.abc/32"; "192.168.7./32"; "192.168.7.1.2/32"]);
    [reflexivity | reflexivity | vm_compute; lia].
Defined.

(** C5, the claim as stated fails: the candidate ["192.168.7.abc/32"], whose
    address is not four numeric octets, is not skipped but yields the node
    [Rabc]. *)
Lemma unparsable_prefix_yields_node :
  build_dynamic_topology (insertion_order string) 1000
    [route "192.168.7.abc/32"] (JObj [])
  = Ok {| nodes := [{| id := "Rabc"; label := "192.168.7.abc" |}];
          edges := [] |}.
Proof. reflexivity. Qed.

Lemma find_local_absent (doc : json) (e : exn) :
  local_peer_id doc = Raise e -> key_or_index e = true ->
  find_local_ip_prefix doc = Ok None.
Proof.
  intros H K. unfold find_local_ip_prefix. rewrite H. simpl. now rewrite K.
Qed.

Lemma find_local_string (doc : json) (s : string) :
  local_peer_id doc = Ok (JStr s) ->
  find_local_ip_prefix doc = Ok (Some (last (split "//" s) "" ++ "/32")%string).
Proof.
  intros H. unfold find_local_ip_prefix. rewrite H. simpl.
  now rewrite list_last_ok by apply split_nonempty.
Qed.

Lemma add_local_some (p : string) (fr : list string) :
  In (p ++ "/32")%string (add_local (Some (p ++ "/32")%string) fr).
Proof.
  unfold add_local.
  replace (String.eqb (p ++ "/32") "") with false by now destruct p.
  apply set_add_In. now left.
Qed.

Lemma node_prefix_set_total (routes : list (odict json)) (acc : list string) :
  Forall (fun r => exists p, get_prefix r = JStr p) routes ->
  exists fr, node_prefix_set routes acc = Ok fr.
Proof.
  intros H. revert acc. induction H as [| r routes [p Hp] _ IH]; intros acc; simpl.
  - now exists acc.
  - rewrite Hp. destruct (startswith p "192.168.7." && endswith p "/32");
      apply IH.
Qed.




(** *** The end-to-end example *)

Lemma end_to_end_built (ord : SetOrder string) (frames : nat) (doc : json) :
  local_peer_id doc = Ok (JStr "bgp://192.168.7.1") ->
  find_prefixes_recursively frames doc "10.85." [] = Ok ["10.85.12.5/32"] ->
  build_dynamic_topology ord frames two_routers doc =
  Ok (to_snapshot
        (fold_left link_step ["10.85.12.5/32"]
           (fold_left node_step
              (set_iter ord ["192.168.7.1/32"; "192.168.7.2/32"]) nx.empty))).
Proof.
  intros Hp Hl.
  pose proof (find_local_string doc _ Hp) as H1.
  assert (H2 : node_prefix_set two_routers []
               = Ok ["192.168.7.1/32"; "192.168.7.2/32"]) by reflexivity.
  apply scan_ok_inv in Hl as [D Hl].
  rewrite (build_ok ord frames two_routers doc _ _ H1 H2 D).
  unfold built. rewrite <- Hl.
  replace (add_local _ _) with ["192.168.7.1/32"; "192.168.7.2/32"]
    by reflexivity.
  now rewrite (Permutation_length_1_inv
                 (Permutation_sym (set_iter_perm ord ["10.85.12.5/32"]))).
Qed.

(** C1 (as amended).  For every document whose first peer-id is
    ["bgp://192.168.7.1"] and in which the recursive scan finds exactly the
    link string ["10.85.12.5/32"], and the routes ["192.168.7.1/32"],
    ["192.168.7.2/32"], the builder produces the nodes [R1] (192.168.7.1) and
    [R2] (192.168.7.2) and exactly one edge, between [R1] and [R2], labelled
    ["10.85.12.5/30"]: the address part of the link string with ["/30"]
    appended, not the /30 network address.  The order of the two nodes, and
    with it the direction of the edge, follows the iteration order of the set
    of node prefixes. *)
Theorem end_to_end_snapshot_built :
  forall (ord : SetOrder string) (frames : nat) (doc : json),
  local_peer_id doc = Ok (JStr "bgp://192.168.7.1") ->
  find_prefixes_recursively frames doc "10.85." [] = Ok ["10.85.12.5/32"] ->
  (set_iter ord ["192.168.7.1/32"; "192.168.7.2/32"]
     = ["192.168.7.1/32"; "192.168.7.2/32"] /\
   build_dynamic_topology ord frames two_routers doc = Ok end_to_end_snapshot) \/
  (set_iter ord ["192.168.7.1/32"; "192.168.7.2/32"]
     = ["192.168.7.2/32"; "192.168.7.1/32"] /\
   build_dynamic_topology ord frames two_routers doc = Ok end_to_end_snapshot_rev).
Proof.
  intros ord frames doc Hp Hl. rewrite (end_to_end_built ord frames doc Hp Hl).
  destruct (Permutation_length_2_inv
              (Permutation_sym
                 (set_iter_perm ord ["192.168.7.1/32"; "192.168.7.2/32"])))
    as [Q | Q]; rewrite Q; [left | right]; split; reflexivity.
Qed.

Lemma end_to_end_snapshot_built_witness :
  build_dynamic_topology (insertion_order string) 1000 two_routers end_to_end_doc
    = Ok end_to_end_snapshot /\
  build_dynamic_topology (reverse_order string) 1000 two_routers end_to_end_doc
    = Ok end_to_end_snapshot_rev.
Proof.
  split.
  - destruct (end_to_end_snapshot_built (insertion_order string) 1000
                end_to_end_doc eq_refl eq_refl) as [[_ H] | [Q _]];
      [exact H | discriminate Q].
  - destruct (end_to_end_snapshot_built (reverse_order string) 1000
                end_to_end_doc eq_refl eq_refl) as [[Q _] | [_ H]];
      [discriminate Q | exact H].
Defined.

(** C1, the claim as stated fails: on the end-to-end document, whose extracted
    routes are the two loopbacks, no iteration order makes the builder return
    the announced snapshot with the label ["10.85.12.0/30"]. *)
Lemma end_to_end_label_not_masked :
  local_peer_id end_to_end_doc = Ok (JStr "bgp://192.168.7.1") /\
  extract_routes (insertion_order json) end_to_end_doc = two_routers /\
  find_prefixes_recursively 1000 end_to_end_doc "10.85." []
    = Ok ["10.85.12.5/32"] /\
  build_dynamic_topology (insertion_order string) 1000 two_routers end_to_end_doc
    = Ok end_to_end_snapshot /\
  ~ exists (ord : SetOrder string) (frames : nat),
      build_dynamic_topology ord frames two_routers end_to_end_doc
      = Ok announced_snapshot.
Proof.
  repeat (split; [reflexivity |]).
  intros (ord & frames & H).
  destruct (build_inv _ _ _ _ _ H) as (_ & _ & _ & _ & D & _).
  rewrite (end_to_end_built ord frames end_to_end_doc eq_refl
             (scan_ok _ _ _ _ D)) in H.
  destruct (Permutation_length_2_inv
              (Permutation_sym
                 (set_iter_perm ord ["192.168.7.1/32"; "192.168.7.2/32"])))
    as [Q | Q]; rewrite Q in H; discriminate H.
Qed.

(** ** Change detection and the poll loop *)

Lemma differs_false (g : Snapshot) (latest : option Snapshot) :
  differs g latest = false <-> latest = Some g.
Proof.
  unfold differs. destruct latest as [s |]; [| split; discriminate].
  destruct (Snapshot_eq_dec g s); split; congruence.
Qed.

Lemma broadcast_no_call (accepts : nat -> bool) (subscribers : list nat)
  (message : Message) :
  broadcasts (snd (broadcast accepts subscribers message)) = 0.
Proof.
  induction subscribers as [| ws rest IH]; simpl; [reflexivity |].
  destruct (broadcast accepts rest message) as [kept sent].
  now destruct (accepts ws).
Qed.

Lemma broadcasts_app (l1 l2 : list event) :
  broadcasts (l1 ++ l2) = broadcasts l1 + broadcasts l2.
Proof.
  induction l1 as [| [m | ws m |] l1 IH]; simpl; congruence.
Qed.

Lemma detect_same (st : State) (g : Snapshot) (accepts : nat -> bool) :
  _latest_snapshot st = Some g -> detect_and_broadcast st g accepts = (st, []).
Proof.
  intros H. unfold detect_and_broadcast.
  now rewrite (proj2 (differs_false g _) H).
Qed.

Lemma detect_new (st : State) (g : Snapshot) (accepts : nat -> bool) :
  _latest_snapshot st <> Some g ->
  detect_and_broadcast st g accepts =
  ({| _latest_snapshot := Some g;
      active := fst (broadcast accepts (active st) (topology_message g)) |},
   Broadcast (topology_message g)
     :: snd (broadcast accepts (active st) (topology_message g))).
Proof.
  intros H. unfold detect_and_broadcast.
  destruct (differs g (_latest_snapshot st)) eqn:D.
  - simpl. fold (topology_message g).
    now destruct (broadcast accepts (active st) (topology_message g)).
  - now apply differs_false in D.
Qed.

(** C2 (as amended).  Change detection compares the snapshot dictionaries
    with [!=], that is the node lists and the edge lists element by element
    and in order.  A new snapshot equal in that sense to the stored one
    leaves the store untouched and is not broadcast; any other snapshot is
    adopted and broadcast once.  Feeding the same snapshot twice in a row to a
    store that does not hold it results in exactly one broadcast. *)
Theorem change_detection_by_list_equality :
  forall (st : State) (g : Snapshot) (accepts accepts' : nat -> bool),
  (_latest_snapshot st = Some g ->
     detect_and_broadcast st g accepts = (st, [])) /\
  (_latest_snapshot st <> Some g ->
     _latest_snapshot (fst (detect_and_broadcast st g accepts)) = Some g /\
     broadcasts (snd (detect_and_broadcast st g accepts)) = 1 /\
     detect_and_broadcast (fst (detect_and_broadcast st g accepts)) g accepts'
       = (fst (detect_and_broadcast st g accepts), []) /\
     broadcasts
       (snd (detect_and_broadcast st g accepts) ++
        snd (detect_and_broadcast (fst (detect_and_broadcast st g accepts))
               g accepts')) = 1).
Proof.
  intros st g accepts accepts'. split; [apply detect_same |].
  intros N. rewrite (detect_new st g accepts N). simpl.
  rewrite detect_same by reflexivity. simpl.
  rewrite app_nil_r, broadcast_no_call. repeat split; reflexivity.
Qed.

Lemma change_detection_by_list_equality_witness :
  broadcasts
    (snd (detect_and_broadcast {| _latest_snapshot := None; active := [1; 2] |}
            end_to_end_snapshot (fun _ => true)) ++
     snd (detect_and_broadcast
            (fst (detect_and_broadcast
                    {| _latest_snapshot := None; active := [1; 2] |}
                    end_to_end_snapshot (fun _ => true)))
            end_to_end_snapshot (fun _ => true))) = 1.
Proof.
  apply (proj2 (change_detection_by_list_equality
                  {| _latest_snapshot := None; active := [1; 2] |}
                  end_to_end_snapshot (fun _ => true) (fun _ => true))).
  discriminate.
Defined.

(** C2, the claim as stated fails: the two snapshots of the end-to-end
    example without their edge hold the same nodes in a different order; with
    one stored, the other is adopted and broadcast. *)
Lemma reordered_snapshot_is_broadcast :
  snapshot_set_eq
    {| nodes := nodes end_to_end_snapshot_rev; edges := [] |}
    {| nodes := nodes end_to_end_snapshot; edges := [] |} /\
  detect_and_broadcast
    {| _latest_snapshot :=
         Some {| nodes := nodes end_to_end_snapshot; edges := [] |};
       active := [1] |}
    {| nodes := nodes end_to_end_snapshot_rev; edges := [] |}
    (fun _ => true)
  = ({| _latest_snapshot :=
          Some {| nodes := nodes end_to_end_snapshot_rev; edges := [] |};
        active := [1] |},
     [Broadcast (topology_message
                   {| nodes := nodes end_to_end_snapshot_rev; edges := [] |});
      Sent 1 (topology_message
                {| nodes := nodes end_to_end_snapshot_rev; edges := [] |})]).
Proof.
  split; [| reflexivity].
  split; intros x; simpl; tauto.
Qed.

(** ** Route extraction *)


Lemma extract_rib_doc (ord : SetOrder json) (loc peers : list json) :
  extract_routes_try ord (rib_doc loc peers) =
  bind (mapM table_prefixes loc) (fun ps =>
    (fun local =>
       bind (mapM peer_prefixes peers) (fun received =>
         (fun rest =>
            unique <- route_set (local ++ rest) [] ;;
            Ok (map route_of (set_iter ord unique))) (concat received)))
    (concat ps)).
Proof.
  unfold extract_routes_try, rib_doc, tables_prefixes. simpl.
  now destruct (mapM table_prefixes loc).
Qed.


Lemma set_iter_nil {A : Type} (ord : SetOrder A) : set_iter ord [] = [].
Proof. apply Permutation_nil, Permutation_sym, set_iter_perm. Qed.

Lemma py_eqb_refl (v : json) : hashable v = true -> py_eqb v v = true.
Proof.
  destruct v; simpl; try discriminate; intros _.
  - reflexivity.
  - now destruct b.
  - apply Z.eqb_refl.
  - apply String.eqb_refl.
Qed.

Lemma py_eqb_sym (a b : json) : py_eqb a b = py_eqb b a.
Proof.
  destruct a, b; simpl; try reflexivity.
  - now destruct b, b0.
  - apply Z.eqb_sym.
  - apply String.eqb_sym.
Qed.

Lemma py_eqb_str (p : string) (v : json) :
  py_eqb (JStr p) v = true -> v = JStr p.
Proof.
  destruct v; simpl; try discriminate. intros H.
  apply String.eqb_eq in H. now subst.
Qed.

Lemma distinct_prefixes_add (v : json) (acc : list json) :
  hashable v = true -> existsb (py_eqb v) acc = false ->
  distinct_prefixes acc -> distinct_prefixes (acc ++ [v]).
Proof.
  intros Hv E (ND & HF & HP).
  assert (N : forall a, In a acc -> py_eqb v a = false).
  { intros a Ha. destruct (py_eqb v a) eqn:Q; [| reflexivity].
    rewrite <- E. symmetry. apply existsb_exists. now exists a. }
  assert (Nin : ~ In v acc).
  { intros H. apply N in H. rewrite py_eqb_refl in H by assumption.
    discriminate. }
  split; [| split].
  - apply NoDup_rev in ND. rewrite <- (rev_involutive (acc ++ [v])).
    apply NoDup_rev. rewrite rev_app_distr. simpl. constructor; [| assumption].
    now rewrite <- in_rev.
  - apply Forall_app. split; [assumption | now constructor].
  - intros a b Ha Hb Q. apply in_app_iff in Ha, Hb.
    destruct Ha as [Ha | [<- | []]], Hb as [Hb | [<- | []]].
    + now apply HP.
    + rewrite py_eqb_sym, (N a Ha) in Q. discriminate.
    + rewrite (N b Hb) in Q. discriminate.
    + reflexivity.
Qed.

Lemma route_set_inv (vs acc u : list json) :
  route_set vs acc = Ok u -> distinct_prefixes acc ->
  distinct_prefixes u /\
  (forall x, In x acc -> In x u) /\
  (forall x, In x u -> In x acc \/ In x vs) /\
  (forall v, In v vs -> exists a, In a u /\ py_eqb v a = true).
Proof.
  revert acc. induction vs as [| v vs IH]; intros acc; simpl.
  - intros [= <-] D. split; [assumption |]. split; [tauto |].
    split; [tauto | intros v []].
  - destruct (hashable v) eqn:Hv; [| discriminate].
    destruct (existsb (py_eqb v) acc) eqn:E; intros H D.
    + destruct (IH _ H D) as (D' & Hmono & Hin & Hall).
      split; [assumption |]. split; [assumption |]. split.
      * intros x Hx. destruct (Hin x Hx); tauto.
      * intros w [<- | Hw]; [| now apply Hall].
        apply existsb_exists in E as (a & Ha & Q).
        exists a. split; [now apply Hmono | assumption].
    + destruct (IH _ H (distinct_prefixes_add v acc Hv E D))
        as (D' & Hmono & Hin & Hall).
      split; [assumption |]. split; [| split].
      * intros x Hx. apply Hmono, in_app_iff. now left.
      * intros x Hx. destruct (Hin x Hx) as [Hx' | Hx']; [| tauto].
        apply in_app_iff in Hx' as [Hx' | [<- | []]]; tauto.
      * intros w [<- | Hw]; [| now apply Hall].
        exists v. split; [| now apply py_eqb_refl].
        apply Hmono, in_app_iff. right. now left.
Qed.

Lemma distinct_prefixes_nil : distinct_prefixes [].
Proof. split; [constructor |]. split; [constructor | intros a b []]. Qed.

Lemma distinct_prefixes_perm (l l' : list json) :
  Permutation l' l -> distinct_prefixes l -> distinct_prefixes l'.
Proof.
  intros HP (ND & HF & HD). split; [| split].
  - eapply Permutation_NoDup; [apply Permutation_sym, HP | exact ND].
  - eapply Permutation_Forall; [apply Permutation_sym, HP | exact HF].
  - intros a b Ha Hb. apply HD; eapply Permutation_in; eassumption.
Qed.

Lemma route_set_total (vs acc : list json) :
  Forall (fun v => hashable v = true) vs -> exists u, route_set vs acc = Ok u.
Proof.
  intros H. revert acc. induction H as [| v vs Hv _ IH]; intros acc; simpl.
  - now exists acc.
  - rewrite Hv. apply IH.
Qed.

Lemma NoDup_map_route_of (vs : list json) :
  NoDup vs -> NoDup (map route_of vs).
Proof.
  induction 1 as [| v vs Hv _ IH]; simpl; constructor; [| exact IH].
  intros H. apply in_map_iff in H as (w & E & Hw).
  unfold route_of in E. injection E as ->. contradiction.
Qed.























(** ** Fetch failure and the loop *)

Lemma handled_failure_empty (r : response) :
  handled_failure r -> fetch_bgp_data r = Ok (JObj []).
Proof.
  destruct r as [status body | | e]; simpl; [| reflexivity | intros []].
  intros N. apply Z.eqb_neq in N. now rewrite N.
Qed.

Lemma handled_failure_snapshot (ordr : SetOrder json) (ords : SetOrder string)
  (frames : nat) (r : response) :
  handled_failure r -> fetch_topology ordr ords frames r = Ok empty_snapshot.
Proof.
  intros F. unfold fetch_topology. now rewrite (handled_failure_empty r F).
Qed.

Lemma build_empty (ords : SetOrder string) (frames : nat) :
  1 <= frames ->
  build_dynamic_topology ords frames [] (JObj []) = Ok empty_snapshot.
Proof.
  intros D.
  rewrite (build_ok ords frames [] (JObj []) None [] eq_refl eq_refl D).
  unfold built. simpl. rewrite !set_iter_nil. reflexivity.
Qed.

Lemma poll_iteration_of (ordr : SetOrder json) (ords : SetOrder string)
  (frames : nat) (st : State) (r : response) (accepts : nat -> bool) (g : Snapshot) :
  fetch_topology ordr ords frames r = Ok g ->
  poll_iteration ordr ords frames st r accepts =
  Ok (fst (detect_and_broadcast st g accepts),
      snd (detect_and_broadcast st g accepts) ++ [Sleep]).
Proof.
  intros H. unfold poll_iteration. rewrite H. simpl.
  now destruct (detect_and_broadcast st g accepts).
Qed.

(** C9, the failing input.  A request to the controller that ends in an
    exception other than [aiohttp.ClientConnectorError] (the server
    disconnects, the request times out, the body of the answer is not JSON)
    is a failed fetch that [fetch_bgp_data] does not turn into the empty
    document: the exception passes through [fetch_topology] and
    [poll_loop], so the cycle has no snapshot, nothing reaches the change
    detector, the iteration does not reach its [Sleep], and the loop ends
    with the exception whatever cycles were to follow.  The request
    [get_topology] makes while nothing is stored ends the same way. *)
Theorem fetch_failure_that_raises_ends_loop :
  forall (ordr : SetOrder json) (ords : SetOrder string) (frames : nat)
         (st : State) (e : exn) (accepts : nat -> bool)
         (rest : list (response * (nat -> bool))),
  fetch_bgp_data (RequestRaises e) = Raise e /\
  fetch_topology ordr ords frames (RequestRaises e) = Raise e /\
  poll_iteration ordr ords frames st (RequestRaises e) accepts = Raise e /\
  poll_loop ordr ords frames st ((RequestRaises e, accepts) :: rest) = Raise e /\
  get_topology ordr ords frames
    {| _latest_snapshot := None; active := active st |} (RequestRaises e)
  = Raise e.
Proof.
  intros ordr ords frames st e accepts rest. repeat split; reflexivity.
Qed.

Lemma build_raises_with_part_1a (ord : SetOrder string) (frames : nat)
  (routes : list (odict json)) (doc : json) (e : exn) :
  find_local_ip_prefix doc = Raise e ->
  build_dynamic_topology ord frames routes doc = Raise e.
Proof. intros H. unfold build_dynamic_topology. now rewrite H. Qed.

(** C4, the failing input.  A controller answer with status 200 whose first
    peer has a [peer-id] that is not a string makes [build_dynamic_topology]
    raise [AttributeError], which nothing catches: the iteration does not
    reach its [Sleep], and the loop ends with the exception whatever cycles
    were to follow.  A route whose prefix is a number has the same effect in
    Part 1b. *)
Theorem poll_loop_ends_on_misshaped_document :
  forall (ordr : SetOrder json) (ords : SetOrder string) (frames : nat)
         (st : State)
         (accepts : nat -> bool) (rest : list (response * (nat -> bool))),
  poll_iteration ordr ords frames st (Response 200 (peer_doc JNull)) accepts
    = Raise AttributeError /\
  poll_loop ordr ords frames st ((Response 200 (peer_doc JNull), accepts) :: rest)
    = Raise AttributeError /\
  poll_iteration (insertion_order json) (insertion_order string) 1000 st
    (Response 200
       (rib_doc [JObj [("bgp-inet:ipv4-routes",
                        JObj [("ipv4-route",
                               JArr [JObj [("prefix", JNum 7)]])])]] []))
    accepts
    = Raise AttributeError.
Proof.
  intros ordr ords frames st accepts rest.
  assert (H : poll_iteration ordr ords frames st (Response 200 (peer_doc JNull)) accepts
              = Raise AttributeError).
  { unfold poll_iteration, fetch_topology. simpl.
    destruct (extract_routes ordr (peer_doc JNull));
      now rewrite (build_raises_with_part_1a ords frames _ (peer_doc JNull)
                     AttributeError eq_refl). }
  split; [exact H |]. split; [| reflexivity].
  simpl. now rewrite H.
Qed.

(** * Further properties *)

(** ** The broadcaster and the poll loop *)

Lemma broadcast_filter (accepts : nat -> bool) (subscribers : list nat)
  (message : Message) :
  broadcast accepts subscribers message =
  (filter accepts subscribers,
   map (fun ws => Sent ws message) (filter accepts subscribers)).
Proof.
  induction subscribers as [| ws rest IH]; simpl; [reflexivity |].
  rewrite IH. now destruct (accepts ws).
Qed.

(** X1.  [manager.broadcast] delivers the message to every subscriber whose
    send returns, in order, and to nobody else, and keeps registered exactly
    those subscribers: a send that raises costs that subscriber its
    registration and leaves the delivery to the others as it is.  A second
    broadcast over the subscribers that were kept, with sends ending the same
    way, drops nobody. *)
Theorem broadcast_delivers_to_accepting :
  forall (accepts : nat -> bool) (subscribers : list nat) (m m' : Message),
  fst (broadcast accepts subscribers m) = filter accepts subscribers /\
  snd (broadcast accepts subscribers m)
    = map (fun ws => Sent ws m) (filter accepts subscribers) /\
  (forall ws, In ws (fst (broadcast accepts subscribers m)) <->
     In ws subscribers /\ accepts ws = true) /\
  (forall ws, In (Sent ws m) (snd (broadcast accepts subscribers m)) <->
     In ws subscribers /\ accepts ws = true) /\
  fst (broadcast accepts (fst (broadcast accepts subscribers m)) m')
    = fst (broadcast accepts subscribers m).
Proof.
  intros accepts subscribers m m'. rewrite !broadcast_filter. simpl.
  split; [reflexivity |]. split; [reflexivity |]. split; [| split].
  - intros ws. apply filter_In.
  - intros ws. rewrite in_map_iff. split.
    + intros (x & Q & H). injection Q as ->. now apply filter_In.
    + intros H. exists ws. split; [reflexivity | now apply filter_In].
  - induction subscribers as [| ws rest IH]; simpl; [reflexivity |].
    destruct (accepts ws) eqn:E; simpl; [rewrite E; now f_equal | exact IH].
Qed.

Lemma detect_cases (st : State) (g : Snapshot) (accepts : nat -> bool) :
  detect_and_broadcast st g accepts =
  if differs g (_latest_snapshot st)
  then ({| _latest_snapshot := Some g;
           active := filter accepts (active st) |},
        Broadcast (topology_message g)
          :: map (fun ws => Sent ws (topology_message g))
               (filter accepts (active st)))
  else (st, []).
Proof.
  unfold detect_and_broadcast. simpl.
  destruct (differs g (_latest_snapshot st)); [| reflexivity].
  fold (topology_message g). now rewrite broadcast_filter.
Qed.

Lemma broadcasts_sent (g : Message) (l : list nat) :
  broadcasts (map (fun ws => Sent ws g) l) = 0.
Proof. induction l; simpl; auto. Qed.

Lemma sleeps_sent (g : Message) (l : list nat) :
  sleeps (map (fun ws => Sent ws g) l) = 0.
Proof. induction l; simpl; auto. Qed.

Lemma sleeps_app (l1 l2 : list event) :
  sleeps (l1 ++ l2) = sleeps l1 + sleeps l2.
Proof. induction l1 as [| [m | ws m |] l1 IH]; simpl; congruence. Qed.

Lemma detect_store (st : State) (g : Snapshot) (accepts : nat -> bool) :
  _latest_snapshot (fst (detect_and_broadcast st g accepts)) = Some g.
Proof.
  rewrite detect_cases. destruct (differs g (_latest_snapshot st)) eqn:D;
    [reflexivity | now apply differs_false in D].
Qed.

Lemma detect_counts (st : State) (g : Snapshot) (accepts : nat -> bool) :
  broadcasts (snd (detect_and_broadcast st g accepts))
    = (if differs g (_latest_snapshot st) then 1 else 0) /\
  sleeps (snd (detect_and_broadcast st g accepts)) = 0.
Proof.
  rewrite detect_cases. destruct (differs g (_latest_snapshot st)); simpl;
    [| split; reflexivity].
  now rewrite broadcasts_sent, sleeps_sent.
Qed.

Lemma poll_iteration_inv (ordr : SetOrder json) (ords : SetOrder string)
  (frames : nat) (st st' : State) (r : response) (accepts : nat -> bool)
  (events : list event) :
  poll_iteration ordr ords frames st r accepts = Ok (st', events) ->
  exists g, fetch_topology ordr ords frames r = Ok g /\
    st' = fst (detect_and_broadcast st g accepts) /\
    events = snd (detect_and_broadcast st g accepts) ++ [Sleep].
Proof.
  intros H. destruct (fetch_topology ordr ords frames r) as [g | e] eqn:F.
  - rewrite (poll_iteration_of _ _ _ _ _ _ _ F) in H. injection H as <- <-.
    now exists g.
  - unfold poll_iteration in H. rewrite F in H. discriminate.
Qed.

(** X2.  An iteration of the poll loop that completes leaves in the store
    exactly the snapshot it built, whether or not it broadcast it; it
    registers no subscriber (those it keeps were registered before); it calls
    the broadcaster once when the built snapshot differs from the stored one
    and not at all otherwise; every message it sends carries the built
    snapshot to a subscriber whose send returned; and it sleeps exactly once,
    as its last step. *)
Theorem poll_iteration_adopts_built_snapshot :
  forall (ordr : SetOrder json) (ords : SetOrder string) (frames : nat)
         (st st' : State)
         (r : response) (accepts : nat -> bool) (events : list event),
  poll_iteration ordr ords frames st r accepts = Ok (st', events) ->
  exists g,
    fetch_topology ordr ords frames r = Ok g /\
    _latest_snapshot st' = Some g /\
    incl (active st') (active st) /\
    broadcasts events = (if differs g (_latest_snapshot st) then 1 else 0) /\
    (forall ws m, In (Sent ws m) events ->
       m = topology_message g /\ In ws (active st) /\ accepts ws = true) /\
    sleeps events = 1 /\
    last events Sleep = Sleep.
Proof.
  intros ordr ords frames st st' r accepts events H.
  destruct (poll_iteration_inv _ _ _ _ _ _ _ _ H) as (g & F & -> & ->).
  exists g. split; [exact F |]. split; [apply detect_store |].
  destruct (detect_counts st g accepts) as [Hb Hs].
  rewrite broadcasts_app, sleeps_app, Hb, Hs, last_last. simpl.
  rewrite detect_cases. destruct (differs g (_latest_snapshot st)); simpl.
  - split; [intros ws Hws; now apply filter_In in Hws |].
    split; [reflexivity |]. split; [| split; reflexivity].
    intros ws m [Q | Hin]; [discriminate |].
    apply in_app_iff in Hin as [Hin | [Q | []]]; [| discriminate].
    apply in_map_iff in Hin as (x & Q & Hx). injection Q as -> <-.
    apply filter_In in Hx. tauto.
  - split; [apply incl_refl |]. split; [reflexivity |].
    split; [| split; reflexivity]. intros ws m [Q | []]. discriminate.
Qed.

Lemma poll_iteration_adopts_built_snapshot_witness :
  exists g,
    fetch_topology (insertion_order json) (insertion_order string) 1000
      (Response 200 end_to_end_doc) = Ok g /\
    Some end_to_end_snapshot = Some g /\
    incl [2] [1; 2] /\
    broadcasts [Broadcast (topology_message end_to_end_snapshot);
                Sent 2 (topology_message end_to_end_snapshot); Sleep]
      = (if differs g None then 1 else 0) /\
    (forall ws m,
       In (Sent ws m) [Broadcast (topology_message end_to_end_snapshot);
                       Sent 2 (topology_message end_to_end_snapshot); Sleep] ->
       m = topology_message g /\ In ws [1; 2] /\ Nat.eqb ws 2 = true) /\
    sleeps [Broadcast (topology_message end_to_end_snapshot);
            Sent 2 (topology_message end_to_end_snapshot); Sleep] = 1 /\
    last [Broadcast (topology_message end_to_end_snapshot);
          Sent 2 (topology_message end_to_end_snapshot); Sleep] Sleep = Sleep.
Proof.
  apply (poll_iteration_adopts_built_snapshot
           (insertion_order json) (insertion_order string) 1000
           {| _latest_snapshot := None; active := [1; 2] |}
           {| _latest_snapshot := Some end_to_end_snapshot; active := [2] |}
           (Response 200 end_to_end_doc) (fun ws => Nat.eqb ws 2)).
  vm_compute. reflexivity.
Defined.

Lemma differs_same (g : Snapshot) : differs g (Some g) = false.
Proof. now apply differs_false. Qed.

Lemma poll_loop_same_snapshot (ordr : SetOrder json) (ords : SetOrder string)
  (frames : nat) (g : Snapshot) (cycles : list (response * (nat -> bool))) (st : State) :
  (forall c, In c cycles -> fetch_topology ordr ords frames (fst c) = Ok g) ->
  exists st' events,
    poll_loop ordr ords frames st cycles = Ok (st', events) /\
    sleeps events = length cycles /\
    incl (active st') (active st) /\
    match cycles with
    | [] => st' = st /\ broadcasts events = 0
    | _ :: _ =>
        _latest_snapshot st' = Some g /\
        broadcasts events = (if differs g (_latest_snapshot st) then 1 else 0)
    end.
Proof.
  revert st. induction cycles as [| [r accepts] rest IH]; intros st Hall.
  - exists st, []. simpl. repeat split; try reflexivity. apply incl_refl.
  - assert (F : fetch_topology ordr ords frames r = Ok g)
      by (apply (Hall (r, accepts)); now left).
    destruct (IH (fst (detect_and_broadcast st g accepts)))
      as (st' & events & HL & HS & HI & HT).
    { intros c Hc. apply Hall. now right. }
    exists st', ((snd (detect_and_broadcast st g accepts) ++ [Sleep]) ++ events).
    destruct (detect_counts st g accepts) as [Hb Hs].
    assert (HA : incl (active (fst (detect_and_broadcast st g accepts)))
                      (active st)).
    { rewrite detect_cases. destruct (differs g (_latest_snapshot st)); simpl;
        [intros ws Hws; now apply filter_In in Hws | apply incl_refl]. }
    split; [| split; [| split]].
    + simpl. rewrite (poll_iteration_of _ _ _ _ _ _ _ F). simpl.
      rewrite HL. reflexivity.
    + rewrite !sleeps_app, Hs, HS. simpl. lia.
    + eapply incl_tran; eassumption.
    + rewrite !broadcasts_app, Hb. simpl.
      destruct rest as [| c rest'].
      * destruct HT as [-> HT]. rewrite HT. split; [apply detect_store | lia].
      * destruct HT as [HT1 HT2]. rewrite HT2, detect_store, differs_same.
        split; [exact HT1 | lia].
Qed.

(** X3.  Over any run of cycles in which every fetch leads to the same
    snapshot, the loop runs every cycle to its sleep, ends with that snapshot
    stored, and calls the broadcaster once in all when the store did not
    already hold the snapshot, and never otherwise: a topology that does not
    change is not sent again, whatever happens to the subscribers in
    between. *)
Theorem unchanged_topology_is_broadcast_once :
  forall (ordr : SetOrder json) (ords : SetOrder string) (frames : nat)
         (st : State)
         (g : Snapshot) (c : response * (nat -> bool))
         (cycles : list (response * (nat -> bool))),
  (forall c', In c' (c :: cycles) -> fetch_topology ordr ords frames (fst c') = Ok g) ->
  exists st' events,
    poll_loop ordr ords frames st (c :: cycles) = Ok (st', events) /\
    _latest_snapshot st' = Some g /\
    incl (active st') (active st) /\
    broadcasts events = (if differs g (_latest_snapshot st) then 1 else 0) /\
    sleeps events = S (length cycles).
Proof.
  intros ordr ords frames st g c cycles H.
  destruct (poll_loop_same_snapshot ordr ords frames g (c :: cycles) st H)
    as (st' & events & HL & HS & HI & HT1 & HT2).
  exists st', events. tauto.
Qed.

Lemma unchanged_topology_is_broadcast_once_witness :
  exists st' events,
    poll_loop (insertion_order json) (insertion_order string) 1000
      {| _latest_snapshot := None; active := [1; 2] |}
      [(Response 200 end_to_end_doc, fun _ => true);
       (Response 200 end_to_end_doc, fun ws => Nat.eqb ws 1);
       (Response 200 end_to_end_doc, fun _ => false)]
    = Ok (st', events) /\
    _latest_snapshot st' = Some end_to_end_snapshot /\
    incl (active st') [1; 2] /\
    broadcasts events = 1 /\
    sleeps events = 3.
Proof.
  apply (unchanged_topology_is_broadcast_once
           (insertion_order json) (insertion_order string) 1000
           {| _latest_snapshot := None; active := [1; 2] |}
           end_to_end_snapshot
           (Response 200 end_to_end_doc, fun _ => true)
           [(Response 200 end_to_end_doc, fun ws => Nat.eqb ws 1);
            (Response 200 end_to_end_doc, fun _ => false)]).
  intros c' [<- | [<- | [<- | []]]]; reflexivity.
Defined.

(** ** The endpoints *)

(** X4.  Once an iteration of the poll loop has completed, [/api/topology]
    answers with the snapshot that iteration built, whatever the controller
    answers at the time of the request and even when that snapshot has no
    node: the 204 answer is given only while nothing is stored. *)
Theorem get_topology_serves_last_cycle :
  forall (ordr : SetOrder json) (ords : SetOrder string) (frames : nat)
         (st st' : State)
         (r r' : response) (accepts : nat -> bool) (events : list event),
  poll_iteration ordr ords frames st r accepts = Ok (st', events) ->
  exists g,
    fetch_topology ordr ords frames r = Ok g /\
    get_topology ordr ords frames st' r' = Ok (Json g).
Proof.
  intros ordr ords frames st st' r r' accepts events H.
  destruct (poll_iteration_inv _ _ _ _ _ _ _ _ H) as (g & F & -> & _).
  exists g. split; [exact F |]. unfold get_topology.
  now rewrite detect_store.
Qed.

Lemma get_topology_serves_last_cycle_witness :
  exists g,
    fetch_topology (insertion_order json) (insertion_order string) 1000
      ClientConnectorError = Ok g /\
    get_topology (insertion_order json) (insertion_order string) 1000
      {| _latest_snapshot := Some empty_snapshot; active := [] |}
      (Response 200 end_to_end_doc) = Ok (Json g).
Proof.
  apply (get_topology_serves_last_cycle
           (insertion_order json) (insertion_order string) 1000
           {| _latest_snapshot := Some end_to_end_snapshot; active := [] |}
           {| _latest_snapshot := Some empty_snapshot; active := [] |}
           ClientConnectorError (Response 200 end_to_end_doc)
           (fun _ => true)
           [Broadcast (topology_message empty_snapshot); Sleep]).
  reflexivity.
Defined.

(** X5.  While nothing is stored, [/api/topology] builds a snapshot on
    demand: it answers 204 when the controller answers with a status other
    than 200 or the connection to it fails with
    [aiohttp.ClientConnectorError], and when the snapshot built has no node;
    it answers with the snapshot itself when it has a node; and it lets
    through any exception of the request or of the build. *)
Theorem get_topology_before_first_cycle :
  forall (ordr : SetOrder json) (ords : SetOrder string) (frames : nat)
         (st : State)
         (r : response),
  _latest_snapshot st = None ->
  (handled_failure r -> get_topology ordr ords frames st r = Ok NoContent) /\
  (forall g, fetch_topology ordr ords frames r = Ok g ->
     get_topology ordr ords frames st r
     = Ok (match nodes g with [] => NoContent | _ :: _ => Json g end)) /\
  (forall e, fetch_topology ordr ords frames r = Raise e ->
     get_topology ordr ords frames st r = Raise e).
Proof.
  intros ordr ords frames st r H. unfold get_topology. rewrite H.
  assert (K : forall g, fetch_topology ordr ords frames r = Ok g ->
            bind (fetch_topology ordr ords frames r)
              (fun initial_graph =>
                 if negb (snapshot_truthy initial_graph)
                    || match nodes initial_graph with
                       | [] => true | _ => false end
                 then Ok NoContent else Ok (Json initial_graph))
            = Ok (match nodes g with [] => NoContent | _ :: _ => Json g end)).
  { intros g F. rewrite F. simpl. now destruct (nodes g). }
  split; [| split].
  - intros F. apply (K empty_snapshot).
    now apply handled_failure_snapshot.
  - exact K.
  - intros e F. now rewrite F.
Qed.

Lemma get_topology_before_first_cycle_witness :
  get_topology (insertion_order json) (insertion_order string) 1000
    {| _latest_snapshot := None; active := [3] |} (Response 404 (JObj []))
  = Ok NoContent /\
  get_topology (insertion_order json) (insertion_order string) 1000
    {| _latest_snapshot := None; active := [3] |} (Response 200 end_to_end_doc)
  = Ok (Json end_to_end_snapshot) /\
  get_topology (insertion_order json) (insertion_order string) 1000
    {| _latest_snapshot := None; active := [3] |}
    (Response 200 (peer_doc JNull))
  = Raise AttributeError /\
  get_topology (insertion_order json) (insertion_order string) 1000
    {| _latest_snapshot := None; active := [3] |}
    (RequestRaises TimeoutError)
  = Raise TimeoutError.
Proof.
  split; [| split; [| split]].
  - apply (proj1 (get_topology_before_first_cycle
                    (insertion_order json) (insertion_order string) 1000
                    {| _latest_snapshot := None; active := [3] |}
                    (Response 404 (JObj [])) eq_refl)).
    discriminate.
  - apply (proj1 (proj2 (get_topology_before_first_cycle
                    (insertion_order json) (insertion_order string) 1000
                    {| _latest_snapshot := None; active := [3] |}
                    (Response 200 end_to_end_doc) eq_refl))
             end_to_end_snapshot).
    reflexivity.
  - apply (proj2 (proj2 (get_topology_before_first_cycle
                    (insertion_order json) (insertion_order string) 1000
                    {| _latest_snapshot := None; active := [3] |}
                    (Response 200 (peer_doc JNull)) eq_refl))
             AttributeError).
    reflexivity.
  - apply (proj2 (proj2 (get_topology_before_first_cycle
                    (insertion_order json) (insertion_order string) 1000
                    {| _latest_snapshot := None; active := [3] |}
                    (RequestRaises TimeoutError) eq_refl))
             TimeoutError).
    reflexivity.
Defined.

Lemma existsb_nat_In (ws : nat) (l : list nat) :
  existsb (Nat.eqb ws) l = true <-> In ws l.
Proof.
  rewrite existsb_exists. split.
  - intros (x & Hx & E). apply Nat.eqb_eq in E. now subst.
  - intros H. exists ws. split; [assumption | apply Nat.eqb_refl].
Qed.

Lemma connect_In (l : list nat) (ws x : nat) :
  In x (connect l ws) <-> x = ws \/ In x l.
Proof.
  unfold connect. destruct (existsb (Nat.eqb ws) l) eqn:E.
  - apply existsb_nat_In in E. split; [tauto | intros [-> | H]; assumption].
  - rewrite in_app_iff. simpl. intuition congruence.
Qed.

Lemma connect_NoDup (l : list nat) (ws : nat) :
  NoDup l -> NoDup (connect l ws).
Proof.
  intros ND. unfold connect. destruct (existsb (Nat.eqb ws) l) eqn:E;
    [assumption |].
  assert (N : ~ In ws l).
  { intros H. apply existsb_nat_In in H. congruence. }
  apply NoDup_rev in ND. rewrite <- (rev_involutive (l ++ [ws])).
  apply NoDup_rev. rewrite rev_app_distr. simpl. constructor; [| assumption].
  now rewrite <- in_rev.
Qed.

Lemma disconnect_In (l : list nat) (ws x : nat) :
  In x (disconnect l ws) <-> In x l /\ x <> ws.
Proof.
  unfold disconnect. rewrite filter_In, negb_true_iff, Nat.eqb_neq.
  intuition congruence.
Qed.

Lemma disconnect_absent (l : list nat) (ws : nat) :
  ~ In ws l -> disconnect l ws = l.
Proof.
  intros N. unfold disconnect. induction l as [| x l IH]; simpl; [reflexivity |].
  destruct (Nat.eqb ws x) eqn:E.
  - apply Nat.eqb_eq in E. subst. exfalso. apply N. now left.
  - simpl. f_equal. apply IH. intros H. apply N. now right.
Qed.

Lemma disconnect_connect (l : list nat) (ws : nat) :
  ~ In ws l -> disconnect (connect l ws) ws = l.
Proof.
  intros N. unfold connect.
  replace (existsb (Nat.eqb ws) l) with false.
  - unfold disconnect. rewrite filter_app. simpl. rewrite Nat.eqb_refl. simpl.
    rewrite app_nil_r. now apply disconnect_absent.
  - symmetry. apply not_true_is_false. intros H. apply existsb_nat_In in H.
    contradiction.
Qed.

(** X6.  A subscriber that connects when a snapshot is stored is sent that
    snapshot at once, before any poll cycle, and is registered once: the
    store and the other subscribers are as they were, and the next broadcast
    reaches the new subscriber whenever its send returns.  With nothing
    stored it is registered and sent nothing. *)
Theorem late_subscriber_receives_stored_snapshot :
  forall (st : State) (ws : nat),
  NoDup (active st) ->
  (forall g, _latest_snapshot st = Some g ->
     snd (fst (websocket_open st ws Returns)) = [Sent ws (topology_message g)]) /\
  (_latest_snapshot st = None ->
     snd (fst (websocket_open st ws Returns)) = []) /\
  snd (websocket_open st ws Returns) = Waiting /\
  _latest_snapshot (fst (fst (websocket_open st ws Returns)))
    = _latest_snapshot st /\
  NoDup (active (fst (fst (websocket_open st ws Returns)))) /\
  (forall x, In x (active (fst (fst (websocket_open st ws Returns)))) <->
     x = ws \/ In x (active st)) /\
  (forall accepts m, accepts ws = true ->
     In (Sent ws m)
        (snd (broadcast accepts
                (active (fst (fst (websocket_open st ws Returns)))) m))).
Proof.
  intros st ws ND.
  assert (A : active (fst (fst (websocket_open st ws Returns)))
              = connect (active st) ws).
  { unfold websocket_open. now destruct (_latest_snapshot st). }
  rewrite A. unfold websocket_open.
  destruct (_latest_snapshot st) as [g |]; simpl.
  - split; [now intros g' [= <-] |]. split; [discriminate |].
    split; [reflexivity |]. split; [reflexivity |].
    split; [now apply connect_NoDup |]. split; [apply connect_In |].
    intros accepts m Ha. rewrite broadcast_filter. simpl.
    apply in_map_iff. exists ws. split; [reflexivity |].
    apply filter_In. split; [apply connect_In; now left | assumption].
  - split; [discriminate |]. split; [reflexivity |].
    split; [reflexivity |]. split; [reflexivity |].
    split; [now apply connect_NoDup |]. split; [apply connect_In |].
    intros accepts m Ha. rewrite broadcast_filter. simpl.
    apply in_map_iff. exists ws. split; [reflexivity |].
    apply filter_In. split; [apply connect_In; now left | assumption].
Qed.

Lemma late_subscriber_receives_stored_snapshot_witness :
  snd (fst (websocket_open
              {| _latest_snapshot := Some end_to_end_snapshot; active := [1] |}
              2 Returns))
  = [Sent 2 (topology_message end_to_end_snapshot)].
Proof.
  assert (ND : NoDup [1]) by (constructor; [intros [] | constructor]).
  apply (proj1 (late_subscriber_receives_stored_snapshot
                  {| _latest_snapshot := Some end_to_end_snapshot;
                     active := [1] |} 2 ND) end_to_end_snapshot).
  reflexivity.
Defined.

(** X7.  How a connection ends.  When a receive, or the first send, raises
    [WebSocketDisconnect], the handler returns with the subscriber
    deregistered and every other subscriber and the store untouched; for a
    subscriber that was not registered before, the subscribers are then
    exactly as before it connected.  Any other exception leaves the handler
    with the subscriber still registered; it is the next broadcast whose
    send to it raises that removes it. *)
Theorem connection_end_deregisters :
  forall (st : State) (ws : nat),
  (forall x, In x (active (fst (websocket_receive st ws Disconnects))) <->
     In x (active st) /\ x <> ws) /\
  snd (websocket_receive st ws Disconnects) = Closed /\
  _latest_snapshot (fst (websocket_receive st ws Disconnects))
    = _latest_snapshot st /\
  (~ In ws (active st) ->
     active (fst (websocket_receive (fst (fst (websocket_open st ws Returns)))
                    ws Disconnects)) = active st /\
     (forall g, _latest_snapshot st = Some g ->
        websocket_open st ws Disconnects = (st, [], Closed))) /\
  (forall g, _latest_snapshot st = Some g ->
     snd (websocket_open st ws Fails) = Aborted /\
     In ws (active (fst (fst (websocket_open st ws Fails))))) /\
  (In ws (active st) ->
     websocket_receive st ws Fails = (st, Aborted) /\
     forall accepts m, accepts ws = false ->
       ~ In ws (fst (broadcast accepts (active st) m)) /\
       forall x, x <> ws ->
         (In x (fst (broadcast accepts (active st) m)) <->
          In x (active st) /\ accepts x = true)).
Proof.
  intros st ws. split; [intros x; apply disconnect_In |].
  split; [reflexivity |]. split; [reflexivity |]. split; [| split].
  - intros N. split.
    + assert (A : active (fst (fst (websocket_open st ws Returns)))
                  = connect (active st) ws).
      { unfold websocket_open. now destruct (_latest_snapshot st). }
      simpl. rewrite A. now apply disconnect_connect.
    + intros g Hg. unfold websocket_open. rewrite Hg. simpl.
      rewrite (disconnect_connect _ _ N). destruct st; simpl in *. now subst.
  - intros g Hg. unfold websocket_open. rewrite Hg. simpl.
    split; [reflexivity | apply connect_In; now left].
  - intros Hin. split; [reflexivity |]. intros accepts m Ha.
    rewrite broadcast_filter. simpl. split.
    + intros H. apply filter_In in H. destruct H. congruence.
    + intros x _. apply filter_In.
Qed.

Lemma connection_end_deregisters_witness :
  active (fst (websocket_receive
                 (fst (fst (websocket_open
                              {| _latest_snapshot := Some end_to_end_snapshot;
                                 active := [1; 3] |} 2 Returns)))
                 2 Disconnects))
  = [1; 3].
Proof.
  assert (N : ~ In 2 (active {| _latest_snapshot := Some end_to_end_snapshot;
                                  active := [1; 3] |}))
    by (simpl; intros [H | [H | []]]; discriminate).
  exact (proj1 (proj1 (proj2 (proj2 (proj2
           (connection_end_deregisters
              {| _latest_snapshot := Some end_to_end_snapshot;
                 active := [1; 3] |} 2)))) N)).
Defined.

(** ** The recursive scan *)


Lemma set_add_app (x : string) (s : list string) :
  exists new, set_add x s = s ++ new.
Proof.
  unfold set_add. destruct (mem_str x s); [exists [] | exists [x]];
    now rewrite ?app_nil_r.
Qed.

Lemma scan_spec_all (pattern : string) (data : json) : scan_spec pattern data.
Proof.
  induction data using json_nested_ind; unfold scan_spec; intros acc ND;
    try (simpl; split; [assumption |]; split;
         [exists []; now rewrite app_nil_r | intros x; tauto]).
  - simpl. destruct (startswith s pattern) eqn:E.
    + split; [now apply set_add_NoDup |]. split; [apply set_add_app |].
      intros x. rewrite set_add_In. split.
      * intros [-> | H]; [right; now split | now left].
      * intros [H | [-> _]]; [now right | now left].
    + split; [assumption |]. split; [exists []; now rewrite app_nil_r |].
      intros x. split; [tauto |]. intros [H | [<- C]]; [assumption | congruence].
  - revert acc ND. induction H as [| item items Hitem _ IH]; intros acc ND.
    + simpl. split; [assumption |]. split; [exists []; now rewrite app_nil_r |].
      intros x. tauto.
    + destruct (Hitem acc ND) as (ND1 & [new1 Q1] & M1).
      destruct (IH _ ND1) as (ND2 & [new2 Q2] & M2).
      simpl in *. split; [exact ND2 |]. split.
      * exists (new1 ++ new2). now rewrite Q2, Q1, app_assoc.
      * intros x. rewrite M2, M1. tauto.
  - revert acc ND. induction H as [| kv d Hkv _ IH]; intros acc ND.
    + simpl. split; [assumption |]. split; [exists []; now rewrite app_nil_r |].
      intros x. tauto.
    + destruct (Hkv acc ND) as (ND1 & [new1 Q1] & M1).
      destruct (IH _ ND1) as (ND2 & [new2 Q2] & M2).
      simpl in *. split; [exact ND2 |]. split.
      * exists (new1 ++ new2). now rewrite Q2, Q1, app_assoc.
      * intros x. rewrite M2, M1. tauto.
Qed.

(** X8.  On a document nested no deeper than the frames the interpreter
    has left, the recursive scan returns, and it finds exactly the string
    values of the document, at any depth, that begin with the pattern, each
    once: it never reports a string that is not in the document or does not
    begin with the pattern, it misses none, and it reports no string twice;
    started from strings already found, it keeps them in place and appends
    the new ones.  On a document nested deeper than that it raises
    [RecursionError]. *)
Theorem scan_finds_exactly_matching_strings :
  forall (frames : nat) (data : json) (pattern : string),
  (depth data <= frames ->
     (exists found,
        find_prefixes_recursively frames data pattern [] = Ok found /\
        NoDup found /\
        forall s, In s found <->
          occurs s data /\ startswith s pattern = true) /\
     (forall acc, NoDup acc ->
        exists new,
          find_prefixes_recursively frames data pattern acc
          = Ok (acc ++ new))) /\
  (frames < depth data ->
     forall acc,
       find_prefixes_recursively frames data pattern acc
       = Raise RecursionError).
Proof.
  intros frames data pattern. split.
  - intros D. split.
    + exists (found_strings data pattern []).
      split; [now apply scan_ok |].
      destruct (scan_spec_all pattern data [] (NoDup_nil _)) as (ND & _ & M).
      split; [exact ND |]. intros s. rewrite M. simpl. tauto.
    + intros acc Hacc. rewrite (scan_ok _ _ _ _ D).
      destruct (scan_spec_all pattern data acc Hacc) as (_ & [new Q] & _).
      exists new. now rewrite Q.
  - intros D acc. now apply scan_raise.
Qed.

Lemma scan_finds_exactly_matching_strings_witness :
  (exists found,
     find_prefixes_recursively 4 (links_doc ["10.85.12.0/30"; "192.168.7.1/32"])
       "10.85." [] = Ok found /\
     NoDup found /\
     forall s, In s found <->
       occurs s (links_doc ["10.85.12.0/30"; "192.168.7.1/32"]) /\
       startswith s "10.85." = true) /\
  find_prefixes_recursively 2 (links_doc ["10.85.12.0/30"; "192.168.7.1/32"])
    "10.85." [] = Raise RecursionError.
Proof.
  split.
  - apply (proj1 (scan_finds_exactly_matching_strings 4
                    (links_doc ["10.85.12.0/30"; "192.168.7.1/32"]) "10.85.")).
    vm_compute. lia.
  - apply (proj2 (scan_finds_exactly_matching_strings 2
                    (links_doc ["10.85.12.0/30"; "192.168.7.1/32"]) "10.85.")).
    vm_compute. lia.
Defined.

(** ** Route extraction, continued *)

(** The two ways [extract_routes] ends. *)
Lemma extract_routes_shape (ord : SetOrder json) (doc : json) :
  extract_routes ord doc = [] \/
  exists vs u,
    route_set vs [] = Ok u /\
    extract_routes ord doc = map route_of (set_iter ord u).
Proof.
  unfold extract_routes, extract_routes_try.
  destruct (py_get doc "bgp-rib:rib" (JArr [])) as [rib | e]; simpl;
    [| now left].
  destruct (truthy rib); simpl; [| now left].
  destruct (py_first rib) as [rib0 | e]; simpl; [| now left].
  destruct (py_get rib0 "loc-rib" (JObj [])) as [loc_rib | e]; simpl;
    [| now left].
  destruct (py_get loc_rib "tables" (JArr [])) as [tables | e]; simpl;
    [| now left].
  destruct (tables_prefixes tables) as [local | e]; simpl; [| now left].
  destruct (py_get rib0 "peer" (JArr [])) as [peers | e]; simpl; [| now left].
  destruct (py_iter peers) as [ps | e]; simpl; [| now left].
  destruct (mapM peer_prefixes ps) as [received | e]; simpl; [| now left].
  destruct (route_set (local ++ concat received) []) as [u | e] eqn:R; simpl;
    [| now left].
  right. now exists (local ++ concat received), u.
Qed.

(** X9.  Whatever the document, the extractor returns a list (it never
    raises) of dictionaries with the single key [prefix]; every prefix in it
    is a hashable value, and no two of the routes have prefixes that Python
    holds equal: in particular no route is returned twice. *)
Theorem extracted_routes_are_distinct :
  forall (ord : SetOrder json) (doc : json),
  exists vs,
    extract_routes ord doc = map route_of vs /\
    distinct_prefixes vs /\
    NoDup (extract_routes ord doc) /\
    (forall r, In r (extract_routes ord doc) ->
       od_keys r = ["prefix"] /\ hashable (get_prefix r) = true) /\
    (forall r1 r2, In r1 (extract_routes ord doc) ->
       In r2 (extract_routes ord doc) ->
       py_eqb (get_prefix r1) (get_prefix r2) = true -> r1 = r2).
Proof.
  intros ord doc.
  assert (K : exists vs, extract_routes ord doc = map route_of vs /\
                         distinct_prefixes vs).
  { destruct (extract_routes_shape ord doc) as [-> | (vs & u & R & ->)].
    - exists []. split; [reflexivity | apply distinct_prefixes_nil].
    - exists (set_iter ord u). split; [reflexivity |].
      apply (distinct_prefixes_perm u); [apply set_iter_perm |].
      now destruct (route_set_inv vs [] u R distinct_prefixes_nil). }
  destruct K as (vs & -> & D). exists vs.
  split; [reflexivity |]. split; [exact D |].
  destruct D as (ND & HF & HD). split; [| split].
  - clear HF HD. induction ND as [| v vs Hv ND IH]; simpl; constructor;
      [| exact IH].
    intros H. apply in_map_iff in H as (w & Q & Hw).
    unfold route_of in Q. injection Q as ->. contradiction.
  - intros r Hr. apply in_map_iff in Hr as (v & <- & Hv).
    split; [reflexivity |]. simpl.
    now apply (proj1 (Forall_forall _ _) HF).
  - intros r1 r2 H1 H2.
    apply in_map_iff in H1 as (a & <- & Ha).
    apply in_map_iff in H2 as (b & <- & Hb). simpl.
    intros Q. now rewrite (HD a b Ha Hb Q).
Qed.

Lemma mapM_map_ok {A B C : Type} (f : B -> result C) (g : A -> B)
  (h : A -> C) (l : list A) :
  (forall x, f (g x) = Ok (h x)) -> mapM f (map g l) = Ok (map h l).
Proof.
  intros H. induction l as [| a l IH]; simpl; [reflexivity |].
  now rewrite H, IH.
Qed.

Lemma table_prefixes_table_of (ps : list string) :
  table_prefixes (table_of ps) = Ok (map JStr ps).
Proof.
  unfold table_prefixes, table_of. simpl.
  now apply mapM_map_ok.
Qed.

Lemma tables_prefixes_table_of (ts : list (list string)) :
  tables_prefixes (JArr (map table_of ts)) = Ok (map JStr (concat ts)).
Proof.
  unfold tables_prefixes. simpl.
  rewrite (mapM_map_ok table_prefixes table_of (map JStr))
    by apply table_prefixes_table_of.
  simpl. now rewrite concat_map.
Qed.

Lemma peer_prefixes_bgp_peer (p : option string * list (list string)) :
  peer_prefixes (bgp_peer p) = Ok (map JStr (concat (snd p))).
Proof.
  destruct p as [[peer_id |] ts]; unfold peer_prefixes, bgp_peer; simpl;
    apply tables_prefixes_table_of.
Qed.

Lemma extract_bgp_doc (ord : SetOrder json) (loc : list (list string))
  (peers : list (option string * list (list string))) :
  extract_routes_try ord (bgp_doc loc peers) =
  bind (route_set (map JStr (advertised loc peers)) [])
       (fun unique => Ok (map route_of (set_iter ord unique))).
Proof.
  unfold bgp_doc. rewrite extract_rib_doc.
  rewrite (mapM_map_ok table_prefixes table_of (map JStr))
    by apply table_prefixes_table_of.
  cbn [bind].
  rewrite (mapM_map_ok peer_prefixes bgp_peer
             (fun p => map JStr (concat (snd p))))
    by apply peer_prefixes_bgp_peer.
  cbn [bind]. unfold advertised.
  rewrite map_app, !concat_map, map_map. reflexivity.
Qed.

Lemma extract_bgp_doc_routes (ord : SetOrder json) (loc : list (list string))
  (peers : list (option string * list (list string))) :
  exists u,
    extract_routes ord (bgp_doc loc peers) = map route_of (set_iter ord u) /\
    distinct_prefixes u /\
    forall v, In v u <-> exists p, v = JStr p /\ In p (advertised loc peers).
Proof.
  destruct (route_set_total (map JStr (advertised loc peers)) [])
    as [u R].
  { apply Forall_forall. intros v Hv. apply in_map_iff in Hv as (p & <- & _).
    reflexivity. }
  destruct (route_set_inv _ _ _ R distinct_prefixes_nil)
    as (D & _ & Hin & Hall).
  exists u. split; [| split; [exact D |]].
  - unfold extract_routes. now rewrite extract_bgp_doc, R.
  - intros v. split.
    + intros Hv. destruct (Hin v Hv) as [[] | Hv'].
      apply in_map_iff in Hv' as (p & <- & Hp). now exists p.
    + intros (p & -> & Hp).
      destruct (Hall (JStr p)) as (a & Ha & Q); [now apply in_map |].
      now rewrite <- (py_eqb_str p a Q).
Qed.

(** X10.  On a routing-table document of the expected shape (tables of local
    routes, peers with or without identifier, each with tables of received
    routes) the extractor returns a route for every advertised prefix,
    whichever table holds it, and nothing else; a prefix advertised several
    times is returned once. *)
Theorem extraction_is_complete_on_well_shaped :
  forall (ord : SetOrder json) (loc : list (list string))
         (peers : list (option string * list (list string))),
  (forall r, In r (extract_routes ord (bgp_doc loc peers)) <->
     exists p, r = route p /\ In p (advertised loc peers)) /\
  NoDup (extract_routes ord (bgp_doc loc peers)).
Proof.
  intros ord loc peers.
  destruct (extract_bgp_doc_routes ord loc peers) as (u & Q & (ND & _) & M).
  rewrite Q. split.
  - intros r. rewrite in_map_iff. split.
    + intros (v & <- & Hv). apply set_iter_In, M in Hv as (p & -> & Hp).
      now exists p.
    + intros (p & -> & Hp). exists (JStr p). split; [reflexivity |].
      apply set_iter_In, M. now exists p.
  - assert (ND' : NoDup (set_iter ord u)).
    { eapply Permutation_NoDup; [apply Permutation_sym, set_iter_perm | exact ND]. }
    now apply NoDup_map_route_of.
Qed.

(** ** Addresses and masks *)

Lemma string_app_assoc (a b c : string) :
  ((a ++ b) ++ c = a ++ (b ++ c))%string.
Proof. induction a as [| x a IH]; simpl; [reflexivity | now rewrite IH]. Qed.

Lemma string_app_nil_r (a : string) : (a ++ "" = a)%string.
Proof. induction a as [| x a IH]; simpl; [reflexivity | now rewrite IH]. Qed.

Lemma prefix_nil (s : string) : String.prefix "" s = true.
Proof. now destruct s. Qed.

Lemma prefix_slash (c : ascii) (s : string) :
  String.prefix "/" (String c s) = Ascii.eqb c "/".
Proof.
  change (String.prefix "/" (String c s))
    with (match ascii_dec "/" c with
          | left _ => String.prefix "" s
          | right _ => false
          end).
  destruct (ascii_dec "/" c) as [<- | N].
  - now rewrite prefix_nil.
  - symmetry. apply Ascii.eqb_neq. congruence.
Qed.

(** The first piece of a split at slashes is the text before the first
    slash. *)
Lemma split_slash_head (a rest cur : string) :
  no_slash a = true ->
  split_from "/" 0 cur (a ++ String "/" rest)
  = (cur ++ a)%string :: split_from "/" 0 "" rest.
Proof.
  revert cur. induction a as [| c a IH]; intros cur H.
  - simpl (_ ++ _)%string. cbn [split_from]. rewrite prefix_slash. simpl.
    now rewrite string_app_nil_r.
  - simpl in H. apply andb_true_iff in H as [Hc Ha].
    simpl (String c a ++ _)%string. cbn [split_from].
    rewrite prefix_slash. apply negb_true_iff in Hc. rewrite Hc.
    rewrite (IH _ Ha), string_app_assoc. reflexivity.
Qed.

Lemma split_slash_none (a cur : string) :
  no_slash a = true -> split_from "/" 0 cur a = [(cur ++ a)%string].
Proof.
  revert cur. induction a as [| c a IH]; intros cur H.
  - simpl. now rewrite string_app_nil_r.
  - simpl in H. apply andb_true_iff in H as [Hc Ha].
    cbn [split_from]. rewrite prefix_slash.
    apply negb_true_iff in Hc. rewrite Hc.
    rewrite (IH _ Ha), string_app_assoc. reflexivity.
Qed.

(** Every string is its address part followed by nothing or by a slash and
    the rest. *)
Lemma ip_of_decompose (s : string) :
  no_slash (ip_of s) = true /\
  (s = ip_of s \/ exists rest, s = (ip_of s ++ String "/" rest)%string).
Proof.
  assert (K : forall s, exists t, no_slash t = true /\
                (s = t \/ exists rest, s = (t ++ String "/" rest)%string)).
  { clear s. induction s as [| c s (t & Ht & Hs)].
    - exists "". split; [reflexivity | now left].
    - destruct (Ascii.eqb c "/") eqn:E.
      + apply Ascii.eqb_eq in E. subst c. exists "". split; [reflexivity |].
        right. now exists s.
      + exists (String c t). split; [simpl; now rewrite E |].
        destruct Hs as [-> | [rest ->]]; [now left | right; now exists rest]. }
  destruct (K s) as (t & Ht & [-> | [rest ->]]); unfold ip_of, split.
  - rewrite (split_slash_none t "" Ht). simpl. split; [assumption | now left].
  - rewrite (split_slash_head t rest "" Ht). simpl.
    split; [assumption | right; now exists rest].
Qed.

Lemma ip_of_masked (a m : string) :
  no_slash a = true -> ip_of (a ++ String "/" m) = a.
Proof.
  intros H. unfold ip_of, split. now rewrite (split_slash_head a m "" H).
Qed.

Lemma ip_of_bare (a : string) : no_slash a = true -> ip_of a = a.
Proof.
  intros H. unfold ip_of, split. now rewrite (split_slash_none a "" H).
Qed.

Lemma link_of_prefix_ip (s : string) :
  link_of_prefix s =
  bind (list_nth (split "." (ip_of s)) 2)
    (fun third_octet =>
       match third_octet with
       | String x (String y EmptyString) =>
           Ok (Some (("R" ++ String x "")%string, ("R" ++ String y "")%string,
                     (ip_of s ++ "/30")%string))
       | _ => Ok None
       end).
Proof.
  unfold link_of_prefix. rewrite list_nth_0 by apply split_nonempty.
  reflexivity.
Qed.

Lemma link_of_prefix_some (s a b l : string) :
  link_of_prefix s = Ok (Some (a, b, l)) <->
  exists x y,
    nth_error (split "." (ip_of s)) 2 = Some (String x (String y "")) /\
    a = ("R" ++ String x "")%string /\ b = ("R" ++ String y "")%string /\
    l = (ip_of s ++ "/30")%string.
Proof.
  rewrite link_of_prefix_ip. unfold list_nth, bind.
  destruct (nth_error (split "." (ip_of s)) 2) as [t |].
  - destruct t as [| x [| y [| z t]]]; split;
      try discriminate;
      try (intros (x' & y' & Q & _); discriminate).
    + intros [= <- <- <-]. now exists x, y.
    + intros (x' & y' & Q & -> & -> & ->). now injection Q as <- <-.
  - split; [discriminate | intros (x & y & Q & _); discriminate].
Qed.

(** X11.  The label of an edge does not depend on the mask the link was
    advertised with: a link string made of an address, a slash and any mask
    names the same endpoints and gives the same label as the address alone,
    and that label is the address followed by ["/30"]. *)
Theorem link_label_ignores_mask :
  forall (a m1 m2 : string),
  no_slash a = true ->
  link_of_prefix (a ++ String "/" m1) = link_of_prefix (a ++ String "/" m2) /\
  link_of_prefix (a ++ String "/" m1) = link_of_prefix a /\
  (forall x y l, link_of_prefix (a ++ String "/" m1) = Ok (Some (x, y, l)) ->
     l = (a ++ "/30")%string).
Proof.
  intros a m1 m2 H. rewrite !link_of_prefix_ip, !ip_of_masked, ip_of_bare
    by assumption.
  split; [reflexivity |]. split; [reflexivity |].
  intros x y l. unfold list_nth, bind.
  destruct (nth_error (split "." a) 2) as [t |]; [| discriminate].
  destruct t as [| x' [| y' [| z t]]]; try discriminate.
  now intros [= _ _ <-].
Qed.

Lemma link_label_ignores_mask_witness :
  link_of_prefix "10.85.12.4/30" = link_of_prefix "10.85.12.4/255.255.255.252" /\
  link_of_prefix "10.85.12.4/30" = link_of_prefix "10.85.12.4" /\
  (forall x y l, link_of_prefix "10.85.12.4/30" = Ok (Some (x, y, l)) ->
     l = "10.85.12.4/30").
Proof.
  apply (link_label_ignores_mask "10.85.12.4" "30" "255.255.255.252").
  reflexivity.
Defined.

Lemma prefix_cons (a b : ascii) (s1 s2 : string) :
  String.prefix (String a s1) (String b s2)
  = if Ascii.eqb a b then String.prefix s1 s2 else false.
Proof.
  change (String.prefix (String a s1) (String b s2))
    with (match ascii_dec a b with
          | left _ => String.prefix s1 s2
          | right _ => false
          end).
  destruct (ascii_dec a b) as [<- | N].
  - now rewrite Ascii.eqb_refl.
  - apply Ascii.eqb_neq in N. now rewrite N.
Qed.

Lemma prefix_before_slash (pre t rest : string) :
  no_slash pre = true ->
  String.prefix pre (t ++ String "/" rest) = true ->
  String.prefix pre t = true.
Proof.
  revert t. induction pre as [| a pre IH]; intros t Hn H;
    [apply prefix_nil |].
  simpl in Hn. apply andb_true_iff in Hn as [Ha Hp].
  apply negb_true_iff in Ha. destruct t as [| b t].
  - simpl (_ ++ _)%string in H. rewrite prefix_cons, Ha in H. discriminate.
  - simpl (_ ++ _)%string in H. rewrite prefix_cons in *.
    destruct (Ascii.eqb a b); [now apply IH | discriminate].
Qed.

Lemma startswith_ip_of (p pre : string) :
  no_slash pre = true -> startswith p pre = true ->
  startswith (ip_of p) pre = true.
Proof.
  unfold startswith. intros Hn H.
  destruct (ip_of_decompose p) as [_ [Q | [rest Q]]].
  - now rewrite <- Q.
  - rewrite Q in H. now apply prefix_before_slash in H.
Qed.

Lemma add_local_inv (lp : option string) (fr : list string) (p : string) :
  In p (add_local lp fr) -> In p fr \/ lp = Some p.
Proof.
  unfold add_local. destruct lp as [q |]; [| tauto].
  destruct (String.eqb q ""); [tauto |]. rewrite set_add_In.
  intros [-> | H]; tauto.
Qed.

Lemma find_local_some_inv (doc : json) (p : string) :
  find_local_ip_prefix doc = Ok (Some p) ->
  exists s, local_peer_id doc = Ok (JStr s) /\
    p = (last (split "//" s) "" ++ "/32")%string.
Proof.
  unfold find_local_ip_prefix.
  destruct (local_peer_id doc) as [v | e]; simpl.
  - destruct v as [| b | n | s | items | d]; simpl; try discriminate.
    rewrite list_last_ok by apply split_nonempty. simpl.
    intros [= <-]. now exists s.
  - destruct (key_or_index e); discriminate.
Qed.

Lemma built_edge_source (ord : SetOrder string) (lp : option string)
  (fr : list string) (doc : json) (e : Edge) :
  In e (edges (to_snapshot (built ord lp fr doc))) ->
  exists s x y,
    In s (found_strings doc "10.85." []) /\
    link_of_prefix s = Ok (Some (x, y, e_label e)) /\ joins e x y.
Proof.
  intros He. pose proof (built_wf ord lp fr doc) as W.
  apply edges_to_snapshot, (edges_label _ _ _ _ W) in He.
  rewrite built_edge_label in He.
  apply relabel_last in He as (l1 & s & l2 & Q & Hn & _).
  apply names_some in Hn as (x & y & Hl & _ & _ & J).
  exists s, x, y. split; [| split; [now apply link_named_iff | exact J]].
  apply (set_iter_In ord). rewrite Q. apply in_elt.
Qed.

(** X12.  Every edge of a snapshot comes from a string value of the document
    that begins with ["10.85."] and whose address part has a third octet of
    exactly two characters [x] and [y]: the edge joins [R<x>] and [R<y>] and
    its label is that address part followed by ["/30"].  A document in which
    no such string has a two-character third octet gives no edge. *)
Theorem edges_come_from_two_character_links :
  forall (ord : SetOrder string) (frames : nat)
         (routes : list (odict json)) (doc : json)
         (snap : Snapshot),
  build_dynamic_topology ord frames routes doc = Ok snap ->
  (forall e, In e (edges snap) ->
     exists s x y,
       occurs s doc /\ startswith s "10.85." = true /\
       nth_error (split "." (ip_of s)) 2 = Some (String x (String y "")) /\
       e_label e = (ip_of s ++ "/30")%string /\
       joins e ("R" ++ String x "") ("R" ++ String y "")) /\
  ((forall s t, occurs s doc -> startswith s "10.85." = true ->
      nth_error (split "." (ip_of s)) 2 = Some t -> String.length t <> 2) ->
   edges snap = []).
Proof.
  intros ord frames routes doc snap H.
  destruct (build_inv ord frames routes doc snap H)
    as (lp & fr & _ & _ & D & ->).
  assert (K : forall e, In e (edges (to_snapshot (built ord lp fr doc))) ->
            exists s x y,
              occurs s doc /\ startswith s "10.85." = true /\
              nth_error (split "." (ip_of s)) 2
                = Some (String x (String y "")) /\
              e_label e = (ip_of s ++ "/30")%string /\
              joins e ("R" ++ String x "") ("R" ++ String y "")).
  { intros e He.
    destruct (built_edge_source ord lp fr doc e He) as (s & a & b & Hs & Hl & J).
    apply link_of_prefix_some in Hl as (x & y & Hn & -> & -> & Hlab).
    destruct (scan_spec_all "10.85." doc [] (NoDup_nil _)) as (_ & _ & M).
    apply M in Hs as [[] | [Ho Hp]].
    exists s, x, y. tauto. }
  split; [exact K |].
  intros Hnone. destruct (edges (to_snapshot (built ord lp fr doc)))
    as [| e rest] eqn:E; [reflexivity |].
  destruct (K e (or_introl eq_refl)) as (s & x & y & Ho & Hp & Hn & _).
  exfalso. now apply (Hnone s _ Ho Hp Hn).
Qed.

Lemma edges_come_from_two_character_links_witness :
  exists s x y,
    occurs s (links_doc ["10.85.123.0/30"; "10.85.12.0/24"; "10.85."]) /\
    startswith s "10.85." = true /\
    nth_error (split "." (ip_of s)) 2 = Some (String x (String y "")) /\
    "10.85.12.0/30" = (ip_of s ++ "/30")%string /\
    joins {| e_from := "R1"; e_to := "R2"; e_label := "10.85.12.0/30" |}
      ("R" ++ String x "") ("R" ++ String y "").
Proof.
  assert (H : build_dynamic_topology (insertion_order string) 1000 two_routers
                (links_doc ["10.85.123.0/30"; "10.85.12.0/24"; "10.85."])
              = Ok (linked_snapshot "10.85.12.0/30"))
    by (vm_compute; reflexivity).
  apply (proj1 (edges_come_from_two_character_links _ _ _ _ _ H)
           {| e_from := "R1"; e_to := "R2"; e_label := "10.85.12.0/30" |}).
  now left.
Defined.

(** X13.  In every snapshot the id of a node is ["R"] followed by the text
    after the last dot of its label, so that the label determines the id;
    the label holds no slash; and it begins with ["192.168.7."] unless it is
    the address taken from the first peer identifier. *)
Theorem node_id_is_derived_from_label :
  forall (ord : SetOrder string) (frames : nat)
         (routes : list (odict json)) (doc : json)
         (snap : Snapshot),
  build_dynamic_topology ord frames routes doc = Ok snap ->
  forall n, In n (nodes snap) ->
    id n = ("R" ++ last (split "." (label n)) "")%string /\
    no_slash (label n) = true /\
    (startswith (label n) "192.168.7." = true \/
     exists s, local_peer_id doc = Ok (JStr s) /\
       label n = ip_of (last (split "//" s) "" ++ "/32")).
Proof.
  intros ord frames routes doc snap H n Hn.
  destruct (build_inv ord frames routes doc snap H)
    as (lp & fr & H1 & H2 & D & ->).
  apply built_nodes in Hn as (p & Hp & -> & ->).
  split; [reflexivity |]. split; [apply ip_of_decompose |].
  apply add_local_inv in Hp as [Hp | ->].
  - left. apply (node_prefix_set_In routes [] fr H2) in Hp
      as [[] | (r & _ & _ & Hs & _)].
    now apply startswith_ip_of.
  - right. apply find_local_some_inv in H1 as (s & Hs & ->). now exists s.
Qed.

Lemma node_id_is_derived_from_label_witness :
  id {| id := "R2"; label := "192.168.7.2" |}
    = ("R" ++ last (split "." "192.168.7.2") "")%string /\
  no_slash "192.168.7.2" = true /\
  (startswith "192.168.7.2" "192.168.7." = true \/
   exists s, local_peer_id end_to_end_doc = Ok (JStr s) /\
     "192.168.7.2" = ip_of (last (split "//" s) "" ++ "/32")).
Proof.
  apply (node_id_is_derived_from_label (insertion_order string) 1000 two_routers
           end_to_end_doc end_to_end_snapshot eq_refl
           {| id := "R2"; label := "192.168.7.2" |}).
  right. now left.
Defined.

(** ** A whole cycle on a document of the expected shape *)

Lemma find_local_bgp_doc (loc : list (list string))
  (peers : list (option string * list (list string))) :
  find_local_ip_prefix (bgp_doc loc peers) = Ok (local_of peers).
Proof.
  destruct peers as [| [[peer_id |] tables] rest].
  - now apply (find_local_absent _ IndexError).
  - now apply find_local_string.
  - now apply (find_local_absent _ KeyError).
Qed.

Lemma depth_arr (items : list json) (n : nat) :
  Forall (fun item => depth item <= n) items -> depth (JArr items) <= S n.
Proof.
  intros H. cbn [depth]. apply le_n_S.
  induction H; [apply Nat.le_0_l | now apply Nat.max_lub].
Qed.

Lemma depth_obj (d : list (string * json)) (n : nat) :
  Forall (fun kv => depth (snd kv) <= n) d -> depth (JObj d) <= S n.
Proof.
  intros H. cbn [depth]. apply le_n_S.
  induction H; [apply Nat.le_0_l | now apply Nat.max_lub].
Qed.

Lemma depth_table_of (prefixes : list string) : depth (table_of prefixes) <= 5.
Proof.
  unfold table_of. repeat (apply depth_obj; constructor; [| constructor]).
  cbn [snd]. apply depth_arr, Forall_forall. intros x Hx.
  apply in_map_iff in Hx as (p & <- & _). cbn. lia.
Qed.

Lemma depth_tables (tables : list (list string)) :
  depth (JArr (map table_of tables)) <= 6.
Proof.
  apply depth_arr, Forall_forall. intros x Hx.
  apply in_map_iff in Hx as (t & <- & _). apply depth_table_of.
Qed.

Lemma depth_bgp_peer (p : option string * list (list string)) :
  depth (bgp_peer p) <= 8.
Proof.
  unfold bgp_peer. apply depth_obj, Forall_app. split.
  - destruct (fst p); repeat constructor.
  - constructor; [| constructor]. cbn [snd].
    apply depth_obj. constructor; [| constructor]. cbn [snd].
    apply depth_tables.
Qed.

(** A document of the expected shape is twelve levels deep at most. *)
Lemma depth_bgp_doc (loc : list (list string))
  (peers : list (option string * list (list string))) :
  depth (bgp_doc loc peers) <= 12.
Proof.
  unfold bgp_doc, rib_doc.
  apply depth_obj. constructor; [| constructor]. cbn [snd].
  apply depth_arr. constructor; [| constructor].
  apply depth_obj. constructor; [| constructor; [| constructor]]; cbn [snd].
  - apply depth_obj. constructor; [| constructor]. cbn [snd].
    apply Nat.le_trans with (m := 6); [apply depth_tables | lia].
  - apply depth_arr, Forall_forall. intros x Hx.
    apply in_map_iff in Hx as (q & <- & _). apply depth_bgp_peer.
Qed.

Lemma fetch_topology_truthy (ordr : SetOrder json) (ords : SetOrder string)
  (frames : nat) (doc : json) :
  truthy doc = true ->
  fetch_topology ordr ords frames (Response 200 doc)
  = build_dynamic_topology ords frames (extract_routes ordr doc) doc.
Proof.
  intros T. unfold fetch_topology. simpl. rewrite T. simpl.
  now destruct (extract_routes ordr doc).
Qed.

(** X14.  A controller answer of the expected shape never ends the loop,
    given the twelve frames its nesting asks of the recursive scan: the
    iteration builds a snapshot, hands it to the change detector and reaches
    its sleep.  In that snapshot every advertised prefix that begins with
    ["192.168.7."] and ends with ["/32"] has its node, whichever table
    advertised it, the first peer's identifier has its node, and there is no
    other node. *)
Theorem well_shaped_answer_completes_cycle :
  forall (ordr : SetOrder json) (ords : SetOrder string) (frames : nat)
         (st : State)
         (loc : list (list string))
         (peers : list (option string * list (list string)))
         (accepts : nat -> bool),
  12 <= frames ->
  exists g,
    fetch_topology ordr ords frames (Response 200 (bgp_doc loc peers)) = Ok g /\
    poll_iteration ordr ords frames st (Response 200 (bgp_doc loc peers)) accepts
      = Ok (fst (detect_and_broadcast st g accepts),
            snd (detect_and_broadcast st g accepts) ++ [Sleep]) /\
    (forall p, In p (advertised loc peers) ->
       startswith p "192.168.7." = true -> endswith p "/32" = true ->
       In (node_id_of p) (ids g)) /\
    (forall p, local_of peers = Some p -> In (node_id_of p) (ids g)) /\
    (forall n, In n (ids g) ->
       exists p, n = node_id_of p /\
         ((In p (advertised loc peers) /\
           startswith p "192.168.7." = true /\ endswith p "/32" = true) \/
          local_of peers = Some p)).
Proof.
  intros ordr ords frames st loc peers accepts D.
  destruct (extract_bgp_doc_routes ordr loc peers) as (u & Q & _ & M).
  assert (HS : Forall (fun r => exists p, get_prefix r = JStr p)
                 (extract_routes ordr (bgp_doc loc peers))).
  { rewrite Q. apply Forall_forall. intros r Hr.
    apply in_map_iff in Hr as (v & <- & Hv).
    apply set_iter_In, M in Hv as (p & -> & _). now exists p. }
  destruct (node_prefix_set_total _ [] HS) as [fr H2].
  pose proof (find_local_bgp_doc loc peers) as H1.
  pose proof (node_prefix_set_In _ [] fr H2) as Hfr.
  assert (Hr : forall p, In (route p) (extract_routes ordr (bgp_doc loc peers))
               <-> In p (advertised loc peers)).
  { intros p. rewrite Q, in_map_iff. split.
    - intros (v & E & Hv). unfold route, route_of in E. injection E as ->.
      apply set_iter_In, M in Hv as (p' & E & Hp). now injection E as ->.
    - intros Hp. exists (JStr p). split; [reflexivity |].
      apply set_iter_In, M. now exists p. }
  exists (to_snapshot (built ords (local_of peers) fr (bgp_doc loc peers))).
  assert (F : fetch_topology ordr ords frames (Response 200 (bgp_doc loc peers))
              = Ok (to_snapshot
                      (built ords (local_of peers) fr (bgp_doc loc peers)))).
  { rewrite fetch_topology_truthy by reflexivity.
    apply build_ok; [assumption | assumption |].
    apply Nat.le_trans with (m := 12); [apply depth_bgp_doc | exact D]. }
  split; [exact F |]. split; [now apply poll_iteration_of |].
  split; [| split].
  - intros p Hp Hs He. apply built_ids. exists p. split; [| reflexivity].
    apply add_local_In, Hfr. right. exists (route p).
    split; [now apply Hr | tauto].
  - intros p Hp. apply built_ids. exists p. split; [| reflexivity].
    rewrite Hp. unfold local_of in Hp.
    destruct peers as [| [[peer_id |] tables] rest]; try discriminate.
    injection Hp as <-. apply add_local_some.
  - intros n Hn. apply built_ids in Hn as (p & Hp & ->). exists p.
    split; [reflexivity |].
    apply add_local_inv in Hp as [Hp | Hp]; [left | now right].
    apply Hfr in Hp as [[] | (r & Hin & Hg & Hs & He)].
    split; [| tauto]. apply Hr.
    rewrite Q in Hin. apply in_map_iff in Hin as (v & <- & Hv).
    change (get_prefix (route_of v)) with v in Hg. subst v.
    rewrite Q. apply in_map_iff. now exists (JStr p).
Qed.

Lemma well_shaped_answer_completes_cycle_witness :
  exists g,
    fetch_topology (insertion_order json) (insertion_order string) 12
      (Response 200
         (bgp_doc [["192.168.7.1/32"; "10.85.12.0/30"]]
                  [(Some "bgp://192.168.7.2", [["192.168.7.2/32"]])])) = Ok g /\
    poll_iteration (insertion_order json) (insertion_order string) 12
      {| _latest_snapshot := None; active := [1] |}
      (Response 200
         (bgp_doc [["192.168.7.1/32"; "10.85.12.0/30"]]
                  [(Some "bgp://192.168.7.2", [["192.168.7.2/32"]])]))
      (fun _ => true)
      = Ok (fst (detect_and_broadcast
                   {| _latest_snapshot := None; active := [1] |} g
                   (fun _ => true)),
            snd (detect_and_broadcast
                   {| _latest_snapshot := None; active := [1] |} g
                   (fun _ => true)) ++ [Sleep]) /\
    In "R1" (ids g) /\ In "R2" (ids g).
Proof.
  destruct (well_shaped_answer_completes_cycle
              (insertion_order json) (insertion_order string) 12
              {| _latest_snapshot := None; active := [1] |}
              [["192.168.7.1/32"; "10.85.12.0/30"]]
              [(Some "bgp://192.168.7.2", [["192.168.7.2/32"]])]
              (fun _ => true) (le_n 12))
    as (g & F & P & A & L & _).
  exists g. split; [exact F |]. split; [exact P |]. split.
  - apply (A "192.168.7.1/32"); [now left | reflexivity | reflexivity].
  - apply (L "192.168.7.2/32"). reflexivity.
Defined.


(** X15.  What a 200 answer that is not an object leads to: a body that
    Python holds false (an empty list, string or object, [null], [false],
    [0]) gives the empty snapshot without extraction or build; any other
    body that is not an object makes the builder raise [TypeError] when it
    subscripts the document, after the extractor has returned no route. *)
Theorem non_object_answer :
  forall (ordr : SetOrder json) (ords : SetOrder string) (frames : nat)
         (doc : json),
  (truthy doc = false ->
     fetch_topology ordr ords frames (Response 200 doc) = Ok empty_snapshot) /\
  (truthy doc = true -> (forall d, doc <> JObj d) ->
     extract_routes ordr doc = [] /\
     fetch_topology ordr ords frames (Response 200 doc) = Raise TypeError).
Proof.
  intros ordr ords frames doc. split.
  - intros T. unfold fetch_topology. simpl. now rewrite T.
  - intros T N.
    assert (E : extract_routes ordr doc = []).
    { unfold extract_routes, extract_routes_try.
      destruct doc; try reflexivity. now destruct (N fields). }
    split; [exact E |]. rewrite fetch_topology_truthy, E by assumption.
    apply build_raises_with_part_1a.
    destruct doc; try reflexivity. now destruct (N fields).
Qed.

Lemma non_object_answer_witness :
  fetch_topology (insertion_order json) (insertion_order string) 1000
    (Response 200 (JArr [])) = Ok empty_snapshot /\
  fetch_topology (insertion_order json) (insertion_order string) 1000
    (Response 200 (JArr [JStr "10.85.12.0/30"])) = Raise TypeError.
Proof.
  split.
  - apply (proj1 (non_object_answer (insertion_order json)
                    (insertion_order string) 1000 (JArr []))).
    reflexivity.
  - apply (proj2 (non_object_answer (insertion_order json)
                    (insertion_order string) 1000
                    (JArr [JStr "10.85.12.0/30"])));
      [reflexivity | discriminate].
Defined.

(** ** Order and labels in the snapshot *)

(** X16.  The direction of an edge in the snapshot follows the order of the
    nodes, not the order of the two characters in the link string: the
    [from] endpoint of every edge is listed among the nodes, and its [to]
    endpoint is not listed before it. *)
Theorem edge_direction_follows_node_order :
  forall (ord : SetOrder string) (frames : nat)
         (routes : list (odict json)) (doc : json)
         (snap : Snapshot),
  build_dynamic_topology ord frames routes doc = Ok snap ->
  forall e, In e (edges snap) ->
    exists before after,
      ids snap = before ++ e_from e :: after /\ ~ In (e_to e) before.
Proof.
  intros ord frames routes doc snap H e He.
  destruct (build_inv ord frames routes doc snap H)
    as (lp & fr & _ & _ & D & ->).
  pose proof (built_wf ord lp fr doc) as W.
  apply edges_to_snapshot, (edges_In _ _ _ _ W) in He as [_ (k1 & k2 & Q & N)].
  exists k1, k2. now rewrite ids_to_snapshot.
Qed.

Lemma edge_direction_follows_node_order_witness :
  exists before after,
    ids (linked_snapshot "10.85.21.0/30") = before ++ "R1" :: after /\
    ~ In "R2" before.
Proof.
  assert (H : build_dynamic_topology (insertion_order string) 1000 two_routers
                (links_doc ["10.85.21.0/30"])
              = Ok (linked_snapshot "10.85.21.0/30"))
    by (vm_compute; reflexivity).
  apply (edge_direction_follows_node_order _ _ _ _ _ H
           {| e_from := "R1"; e_to := "R2"; e_label := "10.85.21.0/30" |}).
  now left.
Defined.

(** X17.  When several candidate prefixes map to the same node id, the one
    node they collapse to carries the address of the last of them in
    processing order: every node of a snapshot the builder returns has the
    id and the label of a candidate prefix after which no candidate with the
    same id is processed. *)
Theorem node_label_is_last_candidate :
  forall (ord : SetOrder string) (frames : nat)
         (routes : list (odict json)) (doc : json) (snap : Snapshot),
  build_dynamic_topology ord frames routes doc = Ok snap ->
  exists lp fr,
    find_local_ip_prefix doc = Ok lp /\
    node_prefix_set routes [] = Ok fr /\
    forall n, In n (nodes snap) ->
      exists l1 p l2,
        set_iter ord (add_local lp fr) = l1 ++ p :: l2 /\
        id n = node_id_of p /\ label n = ip_of p /\
        forall q, In q l2 -> node_id_of q <> id n.
Proof.
  intros ord frames routes doc snap H.
  destruct (build_inv ord frames routes doc snap H)
    as (lp & fr & H1 & H2 & _ & ->).
  exists lp, fr. split; [exact H1 |]. split; [exact H2 |].
  apply built_nodes_last.
Qed.

Lemma node_label_is_last_candidate_witness :
  exists l1 p l2,
    ["192.168.7.3/32"; "10.0.0.3/32"] = l1 ++ p :: l2 /\
    "R3" = node_id_of p /\ "10.0.0.3" = ip_of p /\
    forall q, In q l2 -> node_id_of q <> "R3".
Proof.
  assert (H : build_dynamic_topology (insertion_order string) 1000
                [route "192.168.7.3/32"] (peer_doc (JStr "bgp://10.0.0.3"))
              = Ok {| nodes := [{| id := "R3"; label := "10.0.0.3" |}];
                      edges := [] |}) by (vm_compute; reflexivity).
  destruct (node_label_is_last_candidate _ _ _ _ _ H)
    as (lp & fr & H1 & H2 & T).
  vm_compute in H1. injection H1 as <-.
  vm_compute in H2. injection H2 as <-.
  apply (T {| id := "R3"; label := "10.0.0.3" |}). now left.
Defined.

(** ** A fetch failure that is handled *)

(** X18.  When the controller answers with a status other than 200, or the
    connection to it fails with [aiohttp.ClientConnectorError], the snapshot
    of the cycle is the empty snapshot, which is what Extract and Build give
    on an empty document whenever the scan of Part 2a has a frame to run in;
    the iteration hands it to the change detector as it does any snapshot,
    so that it ends as the iteration of any response with the same snapshot
    does; and over a stored snapshot that is not empty it is adopted and
    broadcast. *)
Theorem failed_fetch_competes_with_empty_snapshot :
  forall (ordr : SetOrder json) (ords : SetOrder string) (frames : nat)
         (st : State)
         (r : response) (accepts : nat -> bool),
  handled_failure r ->
  fetch_topology ordr ords frames r = Ok empty_snapshot /\
  (1 <= frames ->
   spec_failed_fetch_snapshot ordr ords frames = Ok empty_snapshot) /\
  poll_iteration ordr ords frames st r accepts =
    Ok (fst (detect_and_broadcast st empty_snapshot accepts),
        snd (detect_and_broadcast st empty_snapshot accepts) ++ [Sleep]) /\
  (forall r', fetch_topology ordr ords frames r' = fetch_topology ordr ords frames r ->
     poll_iteration ordr ords frames st r' accepts
     = poll_iteration ordr ords frames st r accepts) /\
  (forall rich, _latest_snapshot st = Some rich -> rich <> empty_snapshot ->
     poll_iteration ordr ords frames st r accepts =
       Ok ({| _latest_snapshot := Some empty_snapshot;
              active := fst (broadcast accepts (active st)
                               (topology_message empty_snapshot)) |},
           (Broadcast (topology_message empty_snapshot)
              :: snd (broadcast accepts (active st)
                        (topology_message empty_snapshot))) ++ [Sleep])).
Proof.
  intros ordr ords frames st r accepts F.
  pose proof (handled_failure_snapshot ordr ords frames r F) as Hf.
  split; [exact Hf |]. split.
  { intros D. unfold spec_failed_fetch_snapshot.
    replace (extract_routes ordr (JObj [])) with (@nil (odict json))
      by reflexivity.
    now apply build_empty. }
  split; [now apply poll_iteration_of |]. split.
  - intros r' H. unfold poll_iteration. now rewrite H.
  - intros rich Hl N. rewrite (poll_iteration_of _ _ _ _ _ _ _ Hf).
    rewrite detect_new; [reflexivity |]. rewrite Hl. congruence.
Qed.

Lemma failed_fetch_competes_with_empty_snapshot_witness :
  poll_iteration (insertion_order json) (insertion_order string) 1000
    {| _latest_snapshot := Some end_to_end_snapshot; active := [1; 2] |}
    (Response 503 end_to_end_doc) (fun ws => Nat.eqb ws 1)
  = Ok ({| _latest_snapshot := Some empty_snapshot; active := [1] |},
        [Broadcast (topology_message empty_snapshot);
         Sent 1 (topology_message empty_snapshot); Sleep]).
Proof.
  assert (F : handled_failure (Response 503 end_to_end_doc)) by discriminate.
  apply (proj2 (proj2 (proj2 (proj2
           (failed_fetch_competes_with_empty_snapshot
              (insertion_order json) (insertion_order string) 1000
              {| _latest_snapshot := Some end_to_end_snapshot;
                 active := [1; 2] |}
              (Response 503 end_to_end_doc) (fun ws => Nat.eqb ws 1) F))))
           end_to_end_snapshot eq_refl).
  discriminate.
Defined.
